(** * The resource-lifecycle core of the feed bot

    A shallow embedding of [utils.py] (imported by its siblings under the
    module name [utills]), [downloader.py], [scraper.py] and the navigation
    and recycling parts of [main.py]: the bounded queues, the seen-URL
    window, the played history with its cursor, the disk budget enforcer
    and the browser recycler.

    Python module globals become the fields of a record that every
    function threads explicitly.  A name bound with
    [from utills import X] is a separate binding holding the value [X] had
    when the import statement ran; such bindings are kept apart from the
    [utills] globals they were copied from.  A name that a function assigns
    without declaring it [global] is a local of that function, and a name
    that a module uses without importing it is unbound: such a name is an
    [option] value, [None] while it is unbound, and reading it then raises. *)

From Stdlib Require Import Ascii ZArith QArith Lia.
From stdpp Require Import base gmap strings list pretty.

Local Open Scope Z_scope.

(** ** Strings and paths *)

(** [str.lower] on the ASCII range.  It is only used in front of
    [endswith(".mp4")], and no character outside ASCII lower-cases to one
    of the four characters of that suffix. *)
Definition lower_ascii (c : ascii) : ascii :=
  let n := nat_of_ascii c in
  if ((65 <=? n) && (n <=? 90))%nat then ascii_of_nat (n + 32) else c.

Fixpoint lower (s : string) : string :=
  match s with
  | EmptyString => EmptyString
  | String c s' => String (lower_ascii c) (lower s')
  end.

Fixpoint startswith (p s : string) : bool :=
  match p, s with
  | EmptyString, _ => true
  | String a p', String b s' => Ascii.eqb a b && startswith p' s'
  | String _ _, EmptyString => false
  end.

Definition endswith (s suffix : string) : bool :=
  let n := String.length s in
  let k := String.length suffix in
  ((k <=? n)%nat && String.eqb (String.substring (n - k) k s) suffix)%bool.

(** [s.rstrip("/")] *)
Fixpoint rstrip_slash (s : string) : string :=
  match s with
  | EmptyString => EmptyString
  | String c s' =>
      match rstrip_slash s' with
      | EmptyString => if Ascii.eqb c "/" then EmptyString else String c EmptyString
      | r => String c r
      end
  end.

Fixpoint has_slash (s : string) : bool :=
  match s with
  | EmptyString => false
  | String c s' => (Ascii.eqb c "/" || has_slash s')%bool
  end.

(** [s.split("/")[-1]]: the text after the last slash. *)
Fixpoint last_segment (s : string) : string :=
  match s with
  | EmptyString => EmptyString
  | String c s' =>
      if has_slash s' then last_segment s'
      else if Ascii.eqb c "/" then s' else s
  end.

Fixpoint strip_prefix (p s : string) : option string :=
  match p, s with
  | EmptyString, _ => Some s
  | String a p', String b s' => if Ascii.eqb a b then strip_prefix p' s' else None
  | String _ _, EmptyString => None
  end.

(** [os.path.join(a, b)] on POSIX. *)
Definition os_path_join (a b : string) : string :=
  if startswith "/" b then b
  else if (String.eqb a "" || endswith a "/")%bool then a +:+ b
  else a +:+ "/" +:+ b.

(** ** The file system

    Regular files keyed by their full path, in the order a directory
    listing yields them, with the free space [shutil.disk_usage] reports.
    [d_removed] is a ghost log of the [os.remove] calls that succeeded,
    oldest first. *)

Record file := File { f_path : string; f_size : Z; f_mtime : Z }.

Record disk := Disk {
  d_files : list file;
  d_free : Z;
  d_isdir : bool;          (* os.path.isdir(OUTPUT_PATH) *)
  d_removed : list string
}.

(** [os.path.exists(p)]; the empty path names no file. *)
Definition os_path_exists (p : string) (d : disk) : bool :=
  (negb (String.eqb p "") && existsb (fun f => String.eqb (f_path f) p) (d_files d))%bool.

Definition size_at (p : string) (d : disk) : Z :=
  match List.filter (fun f => String.eqb (f_path f) p) (d_files d) with
  | f :: _ => f_size f
  | [] => 0
  end.

(** [os.remove(p)]; [None] stands for the [OSError] of a missing file. *)
Definition os_remove (p : string) (d : disk) : option disk :=
  if os_path_exists p d then
    Some {| d_files := List.filter (fun f => negb (String.eqb (f_path f) p)) (d_files d);
            d_free := d_free d + size_at p d;
            d_isdir := d_isdir d;
            d_removed := d_removed d ++ [p] |}
  else None.

(** The name of [p] inside [folder], when [p] is a direct child of it. *)
Definition name_in (folder p : string) : option string :=
  match strip_prefix (folder +:+ "/") p with
  | Some name => if (String.eqb name "" || has_slash name)%bool then None else Some name
  | None => None
  end.

(** [os.listdir(folder)], restricted to regular files. *)
Definition os_listdir (folder : string) (d : disk) : list string :=
  omap (fun f => name_in folder (f_path f)) (d_files d).

(** Writing a freshly downloaded file: a file already at [p] is replaced. *)
Definition write_file (p : string) (size mtime : Z) (d : disk) : disk :=
  {| d_files := List.filter (fun f => negb (String.eqb (f_path f) p)) (d_files d)
                  ++ [File p size mtime];
     d_free := d_free d + size_at p d - size;
     d_isdir := d_isdir d;
     d_removed := d_removed d |}.

(** ** Configuration read from the environment at import time *)

Record config := Config {
  OUTPUT_PATH : string;            (* os.path.join(os.getcwd(), "downloads") *)
  OUTPUT_DISK_QUOTA_MB : Z;        (* default 1024 *)
  OUTPUT_DISK_RESERVE_MB : Z;      (* default 2048 *)
  MEM_SOFT_LIMIT_MB : Z            (* default 1200 *)
}.

Definition default_config (cwd : string) : config :=
  {| OUTPUT_PATH := os_path_join cwd "downloads";
     OUTPUT_DISK_QUOTA_MB := 1024;
     OUTPUT_DISK_RESERVE_MB := 2048;
     MEM_SOFT_LIMIT_MB := 1200 |}.

(** ** Bounded deques *)

(** [collections.deque(maxlen=n).append(x)]: appending to a full deque
    discards the element at the other end. *)
Definition deque_append {A} (maxlen : nat) (x : A) (d : list A) : list A :=
  let d' := d ++ [x] in
  if (maxlen <? length d')%nat then drop 1 d' else d'.

(** ** Metadata *)

Record metadata := Metadata {
  duration : option Q;
  caption : string;
  hashtags : list string
}.

(** ** [utils.py], imported everywhere as [utills] *)

Module utills.

Definition PRELOAD_TARGET : nat := 3.
Definition VIDEO_QUEUE_maxlen : nat := PRELOAD_TARGET.   (* deque(maxlen=PRELOAD_TARGET) *)
Definition VIDEO_CACHE_maxlen : nat := 3.                (* deque(maxlen=3) *)
Definition HISTORY_MAX : nat := 3.
Definition SEEN_URLS_MAX : nat := 250.
Definition BROWSER_RESTART_PRELOADS : Z := 200.

(** The module globals, and the file system they are kept consistent with. *)
Record state := State {
  VIDEO_QUEUE : list string;
  VIDEO_CACHE : list string;
  PRELOADED_VIDEOS : gset string;
  SEEN_URLS : list string;
  PLAYED_VIDEOS : list string;
  CURRENT_INDEX : Z;
  PRELOAD_COUNTER : Z;
  METADATA_BY_PATH : gmap string metadata;
  fs : disk
}.

Definition set_VIDEO_QUEUE (v : list string) (s : state) : state :=
  State v (VIDEO_CACHE s) (PRELOADED_VIDEOS s) (SEEN_URLS s) (PLAYED_VIDEOS s)
        (CURRENT_INDEX s) (PRELOAD_COUNTER s) (METADATA_BY_PATH s) (fs s).
Definition set_VIDEO_CACHE (v : list string) (s : state) : state :=
  State (VIDEO_QUEUE s) v (PRELOADED_VIDEOS s) (SEEN_URLS s) (PLAYED_VIDEOS s)
        (CURRENT_INDEX s) (PRELOAD_COUNTER s) (METADATA_BY_PATH s) (fs s).
Definition set_seen (p : gset string) (u : list string) (s : state) : state :=
  State (VIDEO_QUEUE s) (VIDEO_CACHE s) p u (PLAYED_VIDEOS s)
        (CURRENT_INDEX s) (PRELOAD_COUNTER s) (METADATA_BY_PATH s) (fs s).
Definition set_PLAYED_VIDEOS (v : list string) (s : state) : state :=
  State (VIDEO_QUEUE s) (VIDEO_CACHE s) (PRELOADED_VIDEOS s) (SEEN_URLS s) v
        (CURRENT_INDEX s) (PRELOAD_COUNTER s) (METADATA_BY_PATH s) (fs s).
Definition set_CURRENT_INDEX (v : Z) (s : state) : state :=
  State (VIDEO_QUEUE s) (VIDEO_CACHE s) (PRELOADED_VIDEOS s) (SEEN_URLS s) (PLAYED_VIDEOS s)
        v (PRELOAD_COUNTER s) (METADATA_BY_PATH s) (fs s).
Definition set_PRELOAD_COUNTER (v : Z) (s : state) : state :=
  State (VIDEO_QUEUE s) (VIDEO_CACHE s) (PRELOADED_VIDEOS s) (SEEN_URLS s) (PLAYED_VIDEOS s)
        (CURRENT_INDEX s) v (METADATA_BY_PATH s) (fs s).
Definition set_METADATA_BY_PATH (v : gmap string metadata) (s : state) : state :=
  State (VIDEO_QUEUE s) (VIDEO_CACHE s) (PRELOADED_VIDEOS s) (SEEN_URLS s) (PLAYED_VIDEOS s)
        (CURRENT_INDEX s) (PRELOAD_COUNTER s) v (fs s).
Definition set_fs (v : disk) (s : state) : state :=
  State (VIDEO_QUEUE s) (VIDEO_CACHE s) (PRELOADED_VIDEOS s) (SEEN_URLS s) (PLAYED_VIDEOS s)
        (CURRENT_INDEX s) (PRELOAD_COUNTER s) (METADATA_BY_PATH s) v.

(** The globals as the module initialises them (lines 19-40). *)
Definition initial (d : disk) : state :=
  State [] [] ∅ [] [] (-1) 0 ∅ d.

(** [safe_delete]: the exception of a failing [os.remove] is swallowed. *)
Definition safe_delete (path : string) (s : state) : state :=
  if (negb (String.eqb path "") && os_path_exists path (fs s))%bool then
    match os_remove path (fs s) with
    | Some d => set_fs d s
    | None => s
    end
  else s.

Definition _keep_set (s : state) : gset string :=
  list_to_set (PLAYED_VIDEOS s) ∪ list_to_set (VIDEO_CACHE s).

Definition cleanup_files (cfg : config) (s : state) : state :=
  let keep := _keep_set s in
  if negb (d_isdir (fs s)) then s
  else
    foldl (fun st name =>
             if negb (endswith (lower name) ".mp4") then st
             else
               let candidate := os_path_join (OUTPUT_PATH cfg) name in
               if bool_decide (candidate ∈ keep) then st else safe_delete candidate st)
          s (os_listdir (OUTPUT_PATH cfg) (fs s)).

(** The loop of [prune_seen_urls_if_needed]; [popleft] takes the head. *)
Fixpoint prune_loop (seen : list string) (pre : gset string) : list string * gset string :=
  match seen with
  | oldest :: rest =>
      if (SEEN_URLS_MAX <? length seen)%nat then prune_loop rest (pre ∖ {[oldest]})
      else (seen, pre)
  | [] => (seen, pre)
  end.

Definition prune_seen_urls_if_needed (s : state) : state :=
  let '(seen, pre) := prune_loop (SEEN_URLS s) (PRELOADED_VIDEOS s) in
  set_seen pre seen s.

Definition add_seen_url (href : string) (s : state) : state :=
  if bool_decide (href ∈ PRELOADED_VIDEOS s) then s
  else
    let '(seen, pre) :=
      if (SEEN_URLS_MAX <=? length (SEEN_URLS s))%nat then
        match SEEN_URLS s with
        | oldest :: rest => (rest, PRELOADED_VIDEOS s ∖ {[oldest]})
        | [] => (SEEN_URLS s, PRELOADED_VIDEOS s)   (* popleft of an empty deque: not reached, the bound is positive *)
        end
      else (SEEN_URLS s, PRELOADED_VIDEOS s) in
    set_seen (pre ∪ {[href]}) (seen ++ [href]) s.

Definition push_played_video (cfg : config) (path : string) (update_index : bool)
    (s : state) : state :=
  let s1 := set_PLAYED_VIDEOS (PLAYED_VIDEOS s ++ [path]) s in
  let s2 :=
    if (HISTORY_MAX <? length (PLAYED_VIDEOS s1))%nat then
      match PLAYED_VIDEOS s1 with
      | evicted :: rest =>
          let s' := set_PLAYED_VIDEOS rest s1 in
          let s'' := if negb (String.eqb evicted path) then safe_delete evicted s' else s' in
          if 0 <? CURRENT_INDEX s'' then set_CURRENT_INDEX (CURRENT_INDEX s'' - 1) s'' else s''
      | [] => s1
      end
    else s1 in
  let s3 :=
    if update_index then set_CURRENT_INDEX (Z.of_nat (length (PLAYED_VIDEOS s2)) - 1) s2
    else s2 in
  cleanup_files cfg s3.

Definition folder_size_bytes (folder : string) (d : disk) : Z :=
  foldl (fun total f =>
           match name_in folder (f_path f) with
           | Some _ => total + f_size f
           | None => total
           end) 0 (d_files d).

(** [os.stat(p).st_mtime] of an existing file. *)
Definition mtime_at (p : string) (d : disk) : Z :=
  match List.filter (fun f => String.eqb (f_path f) p) (d_files d) with
  | f :: _ => f_mtime f
  | [] => 0
  end.

(** [list.sort(key=...)] is stable: among equal keys the listing order is kept. *)
Fixpoint insert_by_key (key : string -> Z) (p : string) (l : list string) : list string :=
  match l with
  | [] => [p]
  | q :: l' => if key p <=? key q then p :: l else q :: insert_by_key key p l'
  end.

Definition sort_by_key (key : string -> Z) (l : list string) : list string :=
  foldr (insert_by_key key) [] l.

(** The closure [constraints_ok] of [enforce_disk_budget]: it reads the
    enclosing [folder_bytes], [quota_bytes] and [reserve_bytes], and samples
    the free space anew at each call. *)
Definition constraints_ok (cfg : config) (folder_bytes : Z) (s : state) : bool :=
  let quota_bytes := OUTPUT_DISK_QUOTA_MB cfg * 1024 * 1024 in
  let reserve_bytes := OUTPUT_DISK_RESERVE_MB cfg * 1024 * 1024 in
  ((folder_bytes <=? quota_bytes) && (reserve_bytes <=? d_free (fs s)))%bool.

(** The path under the cursor of the module, [None] when the cursor is not
    an index of the history. *)
Definition current_path (s : state) : option string :=
  if ((0 <=? CURRENT_INDEX s)
      && (CURRENT_INDEX s <? Z.of_nat (length (PLAYED_VIDEOS s))))%bool
  then PLAYED_VIDEOS s !! Z.to_nat (CURRENT_INDEX s)
  else None.

(** What a branch of the ladder reports to the loop around it. *)
Inductive turn :=
| raised                                           (* an exception leaves the [try] of line 110 *)
| deleted (CURRENT_INDEX : option Z) (s : state)   (* [did_delete] is set: [continue] *)
| nothing.                                         (* on to the next branch *)

(** Lines 128-156, the history branch of the ladder.  [enforce_disk_budget]
    assigns [CURRENT_INDEX] at line 152 and has no [global] declaration, so
    the name is a local of the function and not the cursor of the module:
    the argument is its binding, [None] while it is unbound.  The test of
    line 131 reads it first and raises [UnboundLocalError] when it is
    unbound.  Every path through the inner [while] leaves it in its first
    turn, so it is a conditional. *)
Definition reclaim_history (CURRENT_INDEX : option Z) (s : state) : turn :=
  match PLAYED_VIDEOS s with
  | [] => nothing
  | oldest :: rest =>
      match CURRENT_INDEX with
      | None => raised
      | Some i =>
          let current_path :=
            if ((0 <=? i) && (i <? Z.of_nat (length (PLAYED_VIDEOS s))))%bool
            then PLAYED_VIDEOS s !! Z.to_nat i
            else None in
          if bool_decide (Some oldest = current_path) then
            match rest with
            | [] => nothing
            | second :: rest' =>
                deleted (Some i) (safe_delete second (set_PLAYED_VIDEOS (oldest :: rest') s))
            end
          else
            deleted (Some (if 0 <? i then i - 1 else i))
                    (safe_delete oldest (set_PLAYED_VIDEOS rest s))
      end
  end.

(** Lines 157-162, the ready-cache branch. *)
Definition reclaim_cache (s : state) : option state :=
  match VIDEO_CACHE s with
  | [] => None
  | old_file :: rest =>
      let s1 := set_VIDEO_CACHE rest s in
      let protect : gset string := list_to_set (PLAYED_VIDEOS s1) in
      Some (if bool_decide (old_file ∈ protect) then s1 else safe_delete old_file s1)
  end.

(** Lines 163-174, the scan for untracked files. *)
Definition untracked_candidates (cfg : config) (s : state) : list string :=
  let keep := _keep_set s in
  omap (fun name =>
          if endswith (lower name) ".mp4" then
            let p := os_path_join (OUTPUT_PATH cfg) name in
            if bool_decide (p ∈ keep) then None else Some p
          else None)
       (os_listdir (OUTPUT_PATH cfg) (fs s)).

Definition reclaim_untracked (cfg : config) (s : state) : option state :=
  match sort_by_key (fun p => mtime_at p (fs s)) (untracked_candidates cfg s) with
  | p :: _ => Some (safe_delete p s)
  | [] => None
  end.

(** The [while not constraints_ok()] loop; [fuel] is what is left of the
    hundred turns the safety counter allows, [CURRENT_INDEX] the local of
    that name.  An exception ends the function with the state as it is:
    line 175 catches and logs it. *)
Fixpoint janitor_loop (cfg : config) (folder_bytes : Z) (fuel : nat)
    (CURRENT_INDEX : option Z) (s : state) : state :=
  if constraints_ok cfg folder_bytes s then s
  else
    match fuel with
    | O => s
    | S fuel' =>
        match reclaim_history CURRENT_INDEX s with
        | raised => s
        | deleted CURRENT_INDEX' s' => janitor_loop cfg folder_bytes fuel' CURRENT_INDEX' s'
        | nothing =>
            match reclaim_cache s with
            | Some s' => janitor_loop cfg folder_bytes fuel' CURRENT_INDEX s'
            | None =>
                match reclaim_untracked cfg s with
                | Some s' => janitor_loop cfg folder_bytes fuel' CURRENT_INDEX s'
                | None => s
                end
            end
        end
    end.

(** [enforce_disk_budget]: on entry the local [CURRENT_INDEX] is unbound. *)
Definition enforce_disk_budget (cfg : config) (s : state) : state :=
  if negb (d_isdir (fs s)) then s
  else
    let s1 := cleanup_files cfg s in
    let folder_bytes := folder_size_bytes (OUTPUT_PATH cfg) (fs s1) in
    janitor_loop cfg folder_bytes 100 None s1.

(** [current_process_rss_mb]: [-1] without [psutil] or when sampling raises. *)
Definition current_process_rss_mb (psutil : bool) (rss_bytes : option Z) : Z :=
  if negb psutil then -1
  else
    match rss_bytes with
    | Some rss => rss / (1024 * 1024)
    | None => -1
    end.

End utills.

(** ** [downloader.py] *)

Module downloader.
Import utills.

(** What [extract_video_metadata] returns when the tool answers. *)
Record extracted := Extracted {
  x_duration : Q;
  x_caption : string;
  x_hashtags : list string
}.

Definition as_metadata (e : extracted) : metadata :=
  Metadata (Some (x_duration e)) (x_caption e) (x_hashtags e).

(** The outcome of the download subprocess: the size and modification time
    of the file it wrote, or any of the failures the function catches. *)
Inductive yt_dlp_result :=
| dl_ok (size mtime : Z)
| dl_failed.

(** [os.makedirs(output_folder)] when the folder is missing. *)
Definition ensure_folder (cfg : config) (output_folder : string) (s : state) : state :=
  if String.eqb output_folder (OUTPUT_PATH cfg) then
    set_fs (Disk (d_files (fs s)) (d_free (fs s)) true (d_removed (fs s))) s
  else s.

(** Lines 49-56, "ensure cache churn". *)
Definition cache_churn (s : state) : state :=
  if (length (VIDEO_CACHE s) =? VIDEO_CACHE_maxlen)%nat then
    match VIDEO_CACHE s with
    | old_file :: rest =>
        let s1 := set_VIDEO_CACHE rest s in
        let s2 := match os_remove old_file (fs s1) with
                  | Some d => set_fs d s1
                  | None => s1
                  end in
        set_METADATA_BY_PATH (delete old_file (METADATA_BY_PATH s2)) s2
    | [] => s
    end
  else s.

(** [metadata and not (5 <= metadata.get("duration", 0) <= 50)] *)
Definition out_of_bounds (m : option extracted) : bool :=
  match m with
  | Some e => negb (Qle_bool 5 (x_duration e) && Qle_bool (x_duration e) 50)
  | None => false
  end.

Definition output_path_of (video_url output_folder : string) : string :=
  let video_id := last_segment (rstrip_slash video_url) in
  os_path_join output_folder (video_id +:+ ".mp4").

Definition download_video (cfg : config) (meta : option extracted) (run : yt_dlp_result)
    (video_url output_folder : string) (s : state) : state * option (string * metadata) :=
  let s1 := cache_churn (ensure_folder cfg output_folder s) in
  if out_of_bounds meta then (s1, None)
  else
    let output_path := output_path_of video_url output_folder in
    match run with
    | dl_failed => (s1, None)
    | dl_ok size mtime =>
        let s2 := set_fs (write_file output_path size mtime (fs s1)) s1 in
        let stored := match meta with
                      | Some e => as_metadata e
                      | None => Metadata None "" []
                      end in
        let s3 := set_METADATA_BY_PATH (<[output_path := stored]> (METADATA_BY_PATH s2)) s2 in
        let s4 := set_VIDEO_CACHE
                    (deque_append VIDEO_CACHE_maxlen output_path (VIDEO_CACHE s3)) s3 in
        let s5 := enforce_disk_budget cfg (cleanup_files cfg s4) in
        (* METADATA_BY_PATH[output_path]: stored above, untouched since *)
        (s5, Some (output_path, stored))
    end.

End downloader.

(** ** [scraper.py] *)

Module scraper.
Import utills.

(** The inner [for] of [get_fresh_video_link] over the anchors of one page,
    an anchor without [href] being the empty string. *)
Fixpoint pick_fresh (hrefs : list string) (s : state) : option string :=
  match hrefs with
  | [] => None
  | href :: rest =>
      if (negb (String.eqb href "") && negb (bool_decide (href ∈ PRELOADED_VIDEOS s)))%bool
      then Some href
      else pick_fresh rest s
  end.

(** Lines 101-105: what happens to the globals once a fresh link is found. *)
Definition note_fresh (href : string) (s : state) : state :=
  let s1 := prune_seen_urls_if_needed (add_seen_url href s) in
  set_PRELOAD_COUNTER (PRELOAD_COUNTER s1 + 1) s1.

(** [pages n] lists the anchors the browser shows at attempt [n]; [None]
    is the exception raised after the last attempt. *)
Fixpoint attempts_from (pages : nat -> list string) (attempt retries : nat)
    (s : state) : state * option string :=
  match retries with
  | O => (s, None)
  | S retries' =>
      match pick_fresh (pages attempt) s with
      | Some href => (note_fresh href s, Some href)
      | None => attempts_from pages (S attempt) retries' s
      end
  end.

Definition get_fresh_video_link (pages : nat -> list string) (s : state)
    : state * option string :=
  attempts_from pages 0 5 s.

End scraper.

(** ** [main.py] *)

Module main.
Import utills.

(** The globals of [main] itself.  [PRELOAD_COUNTER] is the name bound by
    [from utills import PRELOAD_COUNTER] (line 50) and declared [global] in
    [_recycle_browser_if_needed]. *)
Record globals := Globals {
  BROWSER_DRIVER : bool;          (* whether it is not [None] *)
  PRELOAD_COUNTER : Z
}.

Definition initial_globals (d : disk) : globals :=
  Globals false (utills.PRELOAD_COUNTER (utills.initial d)).

(** What the requester and the operator can observe. *)
Inductive event :=
| ev_log (msg : string)                            (* a line of the operator's log *)
| ev_send_video (video_path : string) (index : Z)  (* bot.send_video *)
| ev_send_message (text : string).                 (* bot.send_message, as the posting flow uses it *)

(** How re-establishing the browser session ends. *)
Inductive session_result :=
| session_ok
| setup_browser_raises
| cookies_raise.

(** Lines 83-89. *)
Definition need_restart (cfg : config) (g : globals) (rss_mb : Z) : bool :=
  (((0 <? BROWSER_RESTART_PRELOADS) && (BROWSER_RESTART_PRELOADS <=? PRELOAD_COUNTER g))
   || ((0 <? rss_mb) && (MEM_SOFT_LIMIT_MB cfg <=? rss_mb)))%bool.

(** The second component tells whether the driver was shut down for a
    restart. *)
Definition _recycle_browser_if_needed (cfg : config) (psutil : bool) (rss_bytes : option Z)
    (res : session_result) (g : globals) : globals * bool :=
  let rss_mb := if psutil then current_process_rss_mb psutil rss_bytes else -1 in
  if need_restart cfg g rss_mb then
    match res with
    | session_ok => (Globals true 0, true)
    | setup_browser_raises => (Globals false (PRELOAD_COUNTER g), true)
    | cookies_raise => (Globals true (PRELOAD_COUNTER g), true)
    end
  else (g, false).

(** [send_video] up to the call of the bot: the existence check and the lazy
    metadata lookup. *)
Definition send_video (lazy_meta : option downloader.extracted) (video_path : string)
    (index : Z) (s : state) : state * list event :=
  if negb (os_path_exists video_path (fs s)) then
    (s, [ev_log ("[ERROR] Video file " +:+ video_path +:+ " does not exist")])
  else
    let s' :=
      match METADATA_BY_PATH s !! video_path with
      | Some _ => s
      | None =>
          let m := match lazy_meta with
                   | Some e => downloader.as_metadata e
                   | None => Metadata None "" []
                   end in
          set_METADATA_BY_PATH (<[video_path := m]> (METADATA_BY_PATH s)) s
      end in
    (s', [ev_send_video video_path index]).

(** Lines 266-267, with the value [CURRENT_INDEX] was bound to. *)
Definition present (lazy_meta : option downloader.extracted) (CURRENT_INDEX : Z)
    (s : state) : state * list event :=
  if ((0 <=? CURRENT_INDEX) && (CURRENT_INDEX <? Z.of_nat (length (PLAYED_VIDEOS s))))%bool then
    match PLAYED_VIDEOS s !! Z.to_nat CURRENT_INDEX with
    | Some p => send_video lazy_meta p CURRENT_INDEX s
    | None => (s, [])
    end
  else (s, []).

Definition _handle_next_action (cfg : config) (meta : option downloader.extracted)
    (run : downloader.yt_dlp_result) (lazy_meta : option downloader.extracted)
    (s : state) : state * list event :=
  (* from utills import CURRENT_INDEX *)
  let CURRENT_INDEX := utills.CURRENT_INDEX s in
  match VIDEO_CACHE s with
  | next_path :: rest =>
      let s1 := push_played_video cfg next_path true (set_VIDEO_CACHE rest s) in
      let '(s2, evs) := present lazy_meta CURRENT_INDEX s1 in
      (s2, ev_log ("Moved ready video to played: " +:+ next_path) :: evs)
  | [] =>
      match VIDEO_QUEUE s with
      | next_url :: queue =>
          match downloader.download_video cfg meta run next_url (OUTPUT_PATH cfg)
                  (set_VIDEO_QUEUE queue s) with
          | (s1, Some (path, _meta)) =>
              let s2 := push_played_video cfg path true s1 in
              let '(s3, evs) := present lazy_meta CURRENT_INDEX s2 in
              (s3, ev_log ("Downloaded and moved to played for Next: " +:+ path) :: evs)
          | (s1, None) =>
              (s1, [ev_log "[WARNING] Failed to download fallback next video"])
          end
      | [] => (s, [ev_log "[WARNING] No URL in queue for Next"])
      end
  end.

(** The [prev_video] branch of [navigation_callback] (lines 291-301). *)
Definition prev_video (lazy_meta : option downloader.extracted) (s : state)
    : state * list event :=
  let CURRENT_INDEX := utills.CURRENT_INDEX s in
  if 0 <? CURRENT_INDEX then
    let s1 := set_CURRENT_INDEX (utills.CURRENT_INDEX s - 1) s in
    let '(s2, evs) := present lazy_meta (utills.CURRENT_INDEX s1) s1 in
    (s2, ev_log "Moving to previous video" :: evs)
  else (s, [ev_log "[WARNING] Already at the first video"]).

(** How a queue-filling loop ends. *)
Inductive refill_end :=
| refill_done        (* the condition of the [while] became false *)
| refill_raised      (* [get_fresh_video_link] raised *)
| refill_running.    (* still looping when the fuel ran out *)

(** The loop [while len(VIDEO_QUEUE) < n: VIDEO_QUEUE.append(
    get_fresh_video_link(BROWSER_DRIVER))] of lines 114-116, 133-135,
    152-154 and 455-458.  [feeds k] is what the browser shows during the
    [k]-th discovery of the process; the second component is the number of
    the next discovery. *)
Fixpoint refill_loop (fuel n : nat) (feeds : nat -> nat -> list string) (k : nat)
    (s : state) : state * nat * refill_end :=
  if (length (VIDEO_QUEUE s) <? n)%nat then
    match fuel with
    | O => (s, k, refill_running)
    | S fuel' =>
        match scraper.get_fresh_video_link (feeds k) s with
        | (s1, Some video_url) =>
            refill_loop fuel' n feeds (S k)
              (set_VIDEO_QUEUE (deque_append VIDEO_QUEUE_maxlen video_url (VIDEO_QUEUE s1)) s1)
        | (s1, None) => (s1, S k, refill_raised)
        end
    end
  else (s, k, refill_done).

(** How [main()] ends before the polling loop takes over. *)
Inductive startup_end :=
| start_polling      (* [app.run_polling()] is reached *)
| start_returned     (* [main] returns early *)
| start_raised       (* the exception of a failed discovery leaves [main] *)
| start_running.     (* the queue is still being filled *)

(** What [main()] has done by then: the globals, its own log lines, and
    the arguments of the [send_video] task it has created, if any. *)
Record started := Started {
  st_state : state;
  st_log : list event;
  st_send : option (string * Z);
  st_end : startup_end
}.

(** [main()] up to [app.run_polling()] (lines 425-481).  The two start-up
    downloads have their own collaborators. *)
Definition main (cfg : config) (feeds : nat -> nat -> list string)
    (meta1 : option downloader.extracted) (run1 : downloader.yt_dlp_result)
    (meta2 : option downloader.extracted) (run2 : downloader.yt_dlp_result)
    (s : state) : started :=
  (* from utills import CURRENT_INDEX *)
  let CURRENT_INDEX := utills.CURRENT_INDEX s in
  let log0 := [ev_log "Starting TikTok downloader with Telegram bot..."] in
  (* loop.run_until_complete(init_browser_and_queue(PRELOAD_TARGET)) *)
  match refill_loop PRELOAD_TARGET PRELOAD_TARGET feeds 0 s with
  | (s1, _, refill_raised) => Started s1 log0 None start_raised
  | (s1, _, refill_running) => Started s1 log0 None start_running
  | (s1, k, refill_done) =>
      match VIDEO_QUEUE s1 with
      | [] =>
          Started s1 (log0 ++ [ev_log "[ERROR] No videos queued at startup (first)"])
                  None start_returned
      | first_url :: queue =>
          match downloader.download_video cfg meta1 run1 first_url (OUTPUT_PATH cfg)
                  (set_VIDEO_QUEUE queue s1) with
          | (s2, None) =>
              Started s2 (log0 ++ [ev_log "[ERROR] Failed to download first video at startup"])
                      None start_returned
          | (s2, Some (first_path, _meta1)) =>
              let s3 := push_played_video cfg first_path true s2 in
              let '(s4, log1) :=
                match VIDEO_QUEUE s3 with
                | second_url :: queue' =>
                    match downloader.download_video cfg meta2 run2 second_url (OUTPUT_PATH cfg)
                            (set_VIDEO_QUEUE queue' s3) with
                    | (s', Some _) =>
                        (s', [ev_log "Second video downloaded and kept ready for immediate 'Next'"])
                    | (s', None) =>
                        (s', [ev_log "[WARNING] Failed to download second startup video"])
                    end
                | [] =>
                    (s3, [ev_log "[WARNING] Not enough preloaded URLs to download second startup video"])
                end in
              (* while len(VIDEO_QUEUE) < 1: try ... except Exception: break *)
              let s5 := (refill_loop 1 1 feeds k s4).1.1 in
              let '(send, log2) :=
                if ((0 <=? CURRENT_INDEX)
                    && (CURRENT_INDEX <? Z.of_nat (length (PLAYED_VIDEOS s5))))%bool then
                  match PLAYED_VIDEOS s5 !! Z.to_nat CURRENT_INDEX with
                  | Some p => (Some (p, CURRENT_INDEX), [])
                  | None => (None, [])
                  end
                else (None, [ev_log "[ERROR] No first video to send at startup"]) in
              let s6 := enforce_disk_budget cfg (cleanup_files cfg s5) in
              Started s6 (log0 ++ log1 ++ log2) send start_polling
          end
      end
  end.

(** A pending post flow: the dict [PENDING_POSTS] holds under a chat id. *)
Record flow := Flow {
  stage : Z;
  video_path : string;
  comment : option string;          (* [None] until the first reply *)
  hashtags : option string;         (* [None] until the second reply *)
  prompt_msg_ids : list Z;
  processing_msg_id : option Z      (* the key is missing until the second reply *)
}.

(** What the posting flow asks of the bot and of the event loop. *)
Inductive bot_call :=
| send_message (chat_id : Z) (text : string) (next_button : bool)
| delete_message (chat_id message_id : Z)
| create_post_task (video_path comment : string) (hashtags_list : list string)
| log_line (msg : string).

(** How a handler ends. *)
Inductive handler_end :=
| returned
| handler_raised.    (* an exception leaves the handler *)

(** The name [re] in [main.py]: line 374 refers to it, and the module never
    imports it, so it is unbound. *)
Definition re : option (string -> list string) := None.

(** The [post_video] branch of [navigation_callback] (lines 303-318).
    [chat] is [query.message.chat.id] when there is one; [sent] is the id of
    the message [send_message] returns, [None] when it raises. *)
Definition post_video (TELEGRAM_CHAT_ID : Z) (chat : option Z) (sent : option Z)
    (PENDING_POSTS : gmap Z flow) (s : state) : gmap Z flow * list bot_call * handler_end :=
  (* from utills import CURRENT_INDEX, at the entry of the callback *)
  let CURRENT_INDEX := utills.CURRENT_INDEX s in
  if ((0 <=? CURRENT_INDEX) && (CURRENT_INDEX <? Z.of_nat (length (PLAYED_VIDEOS s))))%bool then
    match PLAYED_VIDEOS s !! Z.to_nat CURRENT_INDEX with
    | Some video_path =>
        let chat_id := match chat with Some c => c | None => TELEGRAM_CHAT_ID end in
        let call := send_message chat_id "What would you like to comment?" false in
        match sent with
        | Some message_id =>
            (<[chat_id := Flow 1 video_path None None [message_id] None]> PENDING_POSTS,
             [call], returned)
        | None =>
            (<[chat_id := Flow 1 video_path None None [] None]> PENDING_POSTS,
             [call], handler_raised)
        end
    | None => (PENDING_POSTS, [], returned)
    end
  else (PENDING_POSTS, [log_line "[WARNING] No current video to post"], returned).

(** [text_message_handler] (lines 324-389).  [text] is
    [update.message.text]; a failing [delete_message] is swallowed.  At
    stage 2 the flow is updated and the processing message sent before line
    374 looks [re] up. *)
Definition text_message_handler (chat : option Z) (text : option string) (sent : option Z)
    (PENDING_POSTS : gmap Z flow) : gmap Z flow * list bot_call * handler_end :=
  match chat with
  | None => (PENDING_POSTS, [], returned)
  | Some chat_id =>
      match PENDING_POSTS !! chat_id with
      | None => (PENDING_POSTS, [], returned)
      | Some flow =>
          let text_or_empty := match text with Some t => t | None => "" end in
          let deletes := map (delete_message chat_id) (prompt_msg_ids flow) in
          if stage flow =? 1 then
            let call := send_message chat_id "What would you like as your #?" false in
            match sent with
            | Some message_id =>
                (<[chat_id := Flow 2 (video_path flow) (Some text_or_empty) (hashtags flow)
                                [message_id] (processing_msg_id flow)]> PENDING_POSTS,
                 deletes ++ [call], returned)
            | None =>
                (<[chat_id := Flow 1 (video_path flow) (Some text_or_empty) (hashtags flow)
                                [] (processing_msg_id flow)]> PENDING_POSTS,
                 deletes ++ [call], handler_raised)
            end
          else if stage flow =? 2 then
            let call :=
              send_message chat_id
                "Your post is now processing. Please check your TikTok shortly to confirm."
                true in
            match sent with
            | Some message_id =>
                let flow3 := Flow 3 (video_path flow) (comment flow) (Some text_or_empty)
                               [] (Some message_id) in
                let comment_or_empty := match comment flow with Some c => c | None => "" end in
                let hashtags_raw := text_or_empty in
                match re with
                | None =>     (* NameError *)
                    (<[chat_id := flow3]> PENDING_POSTS, deletes ++ [call], handler_raised)
                | Some re_split =>
                    let hashtags_list :=
                      List.filter (fun t => negb (String.eqb t "")) (re_split hashtags_raw) in
                    (<[chat_id := flow3]> PENDING_POSTS,
                     deletes ++ [call; create_post_task (video_path flow) comment_or_empty
                                         hashtags_list],
                     returned)
                end
            | None =>
                (<[chat_id := Flow 3 (video_path flow) (comment flow) (Some text_or_empty)
                                [] (processing_msg_id flow)]> PENDING_POSTS,
                 deletes ++ [call], handler_raised)
            end
          else (PENDING_POSTS, [], returned)
      end
  end.

End main.

(** * Vocabulary of the properties *)

Import utills.

(** The last [n] elements of a list. *)
Definition lastn {A} (n : nat) (l : list A) : list A := drop (length l - n) l.

(** A run of [add_seen_url] calls, and the identifiers those calls inserted
    (the calls that were not no-ops), oldest first. *)
Definition mark_all (hrefs : list string) (s : state) : state :=
  foldl (fun st href => add_seen_url href st) s hrefs.

Fixpoint insertions (hrefs : list string) (s : state) : list string :=
  match hrefs with
  | [] => []
  | href :: rest =>
      (if bool_decide (href ∈ PRELOADED_VIDEOS s) then [] else [href])
        ++ insertions rest (add_seen_url href s)
  end.

Definition seen_inv (log : list string) (s : state) : Prop :=
  SEEN_URLS s = lastn SEEN_URLS_MAX log
  /\ NoDup (SEEN_URLS s)
  /\ (forall x, x ∈ PRELOADED_VIDEOS s <-> x ∈ SEEN_URLS s).

(** A property that only reads the globals survives a change of disk. *)
Definition disk_blind (P : state -> Prop) : Prop :=
  forall s d, P s -> P (set_fs d s).


(** The operations of the program on the three containers. *)
Inductive op :=
| op_queue_append (url : string)           (* VIDEO_QUEUE.append(url) *)
| op_queue_popleft                         (* VIDEO_QUEUE.popleft() *)
| op_download (meta : option downloader.extracted) (run : downloader.yt_dlp_result)
    (url : string)                         (* download_video(url, OUTPUT_PATH) *)
| op_push_played (path : string) (update_index : bool)
| op_next (meta : option downloader.extracted) (run : downloader.yt_dlp_result)
    (lazy_meta : option downloader.extracted)
| op_prev (lazy_meta : option downloader.extracted)
| op_cleanup
| op_enforce
| op_discover (pages : nat -> list string).

Definition run_op (cfg : config) (o : op) (s : state) : state :=
  match o with
  | op_queue_append url =>
      set_VIDEO_QUEUE (deque_append VIDEO_QUEUE_maxlen url (VIDEO_QUEUE s)) s
  | op_queue_popleft => set_VIDEO_QUEUE (drop 1 (VIDEO_QUEUE s)) s
  | op_download meta run url =>
      (downloader.download_video cfg meta run url (OUTPUT_PATH cfg) s).1
  | op_push_played path update_index => push_played_video cfg path update_index s
  | op_next meta run lazy_meta => (main._handle_next_action cfg meta run lazy_meta s).1
  | op_prev lazy_meta => (main.prev_video lazy_meta s).1
  | op_cleanup => cleanup_files cfg s
  | op_enforce => enforce_disk_budget cfg s
  | op_discover pages => (scraper.get_fresh_video_link pages s).1
  end.

Definition run_ops (cfg : config) (ops : list op) (s : state) : state :=
  foldl (fun st o => run_op cfg o st) s ops.

(** Fixtures: an output directory, clips in it, and a disk with room. *)
Definition MB : Z := 1024 * 1024.

Definition example_config (quota_mb reserve_mb : Z) : config :=
  Config "/srv/bot/downloads" quota_mb reserve_mb 1200.

Definition clip (n : string) : string := "/srv/bot/downloads/" +:+ n +:+ ".mp4".

Definition clips_of (size : Z) (names : list string) : list file :=
  imap (fun i n => File (clip n) size (Z.of_nat i)) names.

(** A full ready cache of three clips of 10MB. *)
Definition full_cache_state : state :=
  State ["https://www.tiktok.com/@u/video/4"] [clip "1"; clip "2"; clip "3"] ∅ [] [] (-1) 0
        (<[clip "1" := Metadata (Some 20%Q) "one" []]> ∅)
        (Disk (clips_of (10 * MB) ["1"; "2"; "3"]) (5000 * MB) true []).

(** Quota 100MB, four tracked clips of 30MB: three in the history with the
    cursor on the second, one in the ready cache. *)
Definition quota_scenario : state :=
  State [] [clip "4"] ∅ [] [clip "1"; clip "2"; clip "3"] 1 0 ∅
        (Disk (clips_of (30 * MB) ["1"; "2"; "3"; "4"]) (5000 * MB) true []).

(** Nothing played yet, three ready clips of 30MB. *)
Definition cache_only_scenario : state :=
  State [] [clip "1"; clip "2"; clip "3"] ∅ [] [] (-1) 0 ∅
        (Disk (clips_of (30 * MB) ["1"; "2"; "3"]) (5000 * MB) true []).

(** Example inputs of the download and discovery collaborators. *)
Definition video_url (n : string) : string := "https://www.tiktok.com/@u/video/" +:+ n.

Definition short_clip : option downloader.extracted :=
  Some (downloader.Extracted 20%Q "caption" ["#tag"]).

Definition roomy_disk : disk := Disk [] (5000 * MB) true [].

(** What [main()] does before it starts polling: the first clip is
    downloaded and pushed to the history, the second is downloaded and kept
    ready. *)
Definition startup : list op :=
  [ op_download short_clip (downloader.dl_ok (10 * MB) 1) (video_url "1");
    op_push_played (clip "1") true;
    op_download short_clip (downloader.dl_ok (10 * MB) 2) (video_url "2") ].

Definition after_startup : state :=
  run_ops (example_config 1024 2048) startup (initial roomy_disk).

Definition after_first_next : state :=
  run_op (example_config 1024 2048)
    (op_next short_clip (downloader.dl_ok (10 * MB) 3) None) after_startup.

(** Other users of the disk leave [free] bytes of it. *)
Definition disk_fills_up (free : Z) (s : state) : state :=
  set_fs (Disk (d_files (fs s)) free (d_isdir (fs s)) (d_removed (fs s))) s.

(** The cursor is a valid index or [-1], and it is [-1] exactly when the
    history is empty. *)
Definition cursor_ok (s : state) : Prop :=
  (0 <= CURRENT_INDEX s < Z.of_nat (length (PLAYED_VIDEOS s)) \/ CURRENT_INDEX s = -1)
  /\ (CURRENT_INDEX s = -1 <-> PLAYED_VIDEOS s = []).

(** The states the cursor-touching operations reach: pushes that advance the
    cursor or extend a non-empty history, moves to the previous artifact,
    runs of the enforcer, and anything that leaves the history and the
    cursor alone. *)
Inductive cursor_reachable (cfg : config) : state -> Prop :=
| reach_initial (d : disk) : cursor_reachable cfg (initial d)
| reach_push (path : string) (update_index : bool) (s : state) :
    cursor_reachable cfg s ->
    update_index = true \/ PLAYED_VIDEOS s <> [] ->
    cursor_reachable cfg (push_played_video cfg path update_index s)
| reach_prev (lazy_meta : option downloader.extracted) (s : state) :
    cursor_reachable cfg s ->
    cursor_reachable cfg (main.prev_video lazy_meta s).1
| reach_enforce (s : state) :
    cursor_reachable cfg s ->
    cursor_reachable cfg (enforce_disk_budget cfg s)
| reach_other (s s' : state) :
    cursor_reachable cfg s ->
    PLAYED_VIDEOS s' = PLAYED_VIDEOS s ->
    CURRENT_INDEX s' = CURRENT_INDEX s ->
    cursor_reachable cfg s'.

(** The enforcer run on the state the first "next" leaves, the disk having
    dropped to 100MB of free space, under the reserve. *)
Definition after_enforcement : state :=
  enforce_disk_budget (example_config 1024 2048)
    (disk_fills_up (100 * MB) after_first_next).

(** What reaches the requester: the calls of the bot, not the log. *)
Definition to_requester (e : main.event) : bool :=
  match e with
  | main.ev_log _ => false
  | main.ev_send_video _ _ => true
  | main.ev_send_message _ => true
  end.

Definition surfaced (evs : list main.event) : Prop :=
  exists e, e ∈ evs /\ to_requester e = true.

(** The background work that concerns the recycler: discovery, which acts on
    the globals of [utills], and the recycling check, which acts on the
    globals of [main].  The third component counts the restarts. *)
Inductive background_op :=
| bg_discover (pages : nat -> list string)
| bg_recycle (psutil : bool) (rss_bytes : option Z) (res : main.session_result).

Definition run_background (cfg : config) (o : background_op)
    (w : state * main.globals * nat) : state * main.globals * nat :=
  let '(s, g, restarts) := w in
  match o with
  | bg_discover pages => ((scraper.get_fresh_video_link pages s).1, g, restarts)
  | bg_recycle psutil rss_bytes res =>
      let '(g', restarted) := main._recycle_browser_if_needed cfg psutil rss_bytes res g in
      (s, g', if restarted then S restarts else restarts)
  end.

Definition run_backgrounds (cfg : config) (ops : list background_op)
    (w : state * main.globals * nat) : state * main.globals * nat :=
  foldl (fun st o => run_background cfg o st) w ops.

(** [n] discoveries in a row, each page showing one link not seen before. *)
Definition discoveries (n : nat) : list background_op :=
  (fun k => bg_discover (fun _ => [video_url (pretty k)])) <$> seq 0 n.

(** Memory sampling is unavailable in every recycling check of [ops]. *)
Definition sampling_unavailable (ops : list background_op) : Prop :=
  Forall (fun o => match o with
                   | bg_recycle psutil rss_bytes _ => psutil = false \/ rss_bytes = None
                   | bg_discover _ => True
                   end) ops.

(** How often [os.remove] has deleted the file at [p]. *)
Definition times_removed (p : string) (d : disk) : nat :=
  length (List.filter (String.eqb p) (d_removed d)).

(** The claim about one eviction, [before] and [after] being the states
    around it. *)
Definition eviction_as_claimed (evicted inserted : string) (before after : state) : Prop :=
  if decide (evicted = inserted)
  then times_removed evicted (fs after) = times_removed evicted (fs before)
       /\ METADATA_BY_PATH after !! evicted = METADATA_BY_PATH before !! evicted
  else times_removed evicted (fs after) = S (times_removed evicted (fs before))
       /\ METADATA_BY_PATH after !! evicted = None.

(** A full history of three clips, the cursor on the newest. *)
Definition full_history_state : state :=
  State [] [clip "4"] ∅ [] [clip "1"; clip "2"; clip "3"] 2 0
        (<[clip "1" := Metadata (Some 20%Q) "one" []]> ∅)
        (Disk (clips_of (10 * MB) ["1"; "2"; "3"; "4"]) (5000 * MB) true []).

(** The body of the loop of [cleanup_files], for the keep set computed on
    entry. *)
Definition sweep_step (cfg : config) (keep : gset string) (st : state) (name : string)
    : state :=
  if negb (endswith (lower name) ".mp4") then st
  else
    let candidate := os_path_join (OUTPUT_PATH cfg) name in
    if bool_decide (candidate ∈ keep) then st else safe_delete candidate st.

(** A folder with an untracked clip, a text file and a clip elsewhere. *)
Definition littered_state : state :=
  State [] [clip "2"] ∅ [] [clip "1"] 0 0 ∅
        (Disk [File (clip "1") MB 1; File (clip "2") MB 2; File (clip "3") MB 3;
               File "/srv/bot/downloads/notes.txt" 1 4;
               File "/srv/bot/other/9.mp4" MB 5] (5000 * MB) true []).

(** Artifacts played one after the other, each advancing the cursor. *)
Definition play_all (cfg : config) (paths : list string) (s : state) : state :=
  foldl (fun st path => push_played_video cfg path true st) s paths.

(** The tracker is consistent: the order sequence is duplicate-free and
    within its bound, and the set holds exactly its elements. *)
Definition seen_ok (s : state) : Prop :=
  NoDup (SEEN_URLS s)
  /\ (forall x, x ∈ PRELOADED_VIDEOS s <-> x ∈ SEEN_URLS s)
  /\ (length (SEEN_URLS s) <= SEEN_URLS_MAX)%nat.

(** A tracker that has seen one link. *)
Definition seasoned_tracker : state :=
  State [] [] {[video_url "7"]} [video_url "7"] [] (-1) 1 ∅ roomy_disk.

(** [st] differs from [s0] by removals from the ready cache and the disk
    only: no other global has changed, the cache is a suffix of what it was,
    and every file was there before. *)
Definition only_removes (s0 st : state) : Prop :=
  VIDEO_QUEUE st = VIDEO_QUEUE s0
  /\ PRELOADED_VIDEOS st = PRELOADED_VIDEOS s0
  /\ SEEN_URLS st = SEEN_URLS s0
  /\ PRELOAD_COUNTER st = PRELOAD_COUNTER s0
  /\ METADATA_BY_PATH st = METADATA_BY_PATH s0
  /\ PLAYED_VIDEOS st = PLAYED_VIDEOS s0
  /\ CURRENT_INDEX st = CURRENT_INDEX s0
  /\ VIDEO_CACHE st `suffix_of` VIDEO_CACHE s0
  /\ (forall f, f ∈ d_files (fs st) -> f ∈ d_files (fs s0)).

(** Three clips played, the cursor moved back to the first, two more clips
    ready, and the disk under its reserve. *)
Definition pressed_state : state :=
  State [] [clip "4"; clip "5"] ∅ [] [clip "1"; clip "2"; clip "3"] 0 0 ∅
        (Disk (clips_of (10 * MB) ["1"; "2"; "3"; "4"; "5"]) (100 * MB) true []).

(** Nothing tracked, two stray clips of different age. *)
Definition stray_state : state :=
  State [] [] ∅ [] [] (-1) 0 ∅
        (Disk [File (clip "new") MB 20; File (clip "old") MB 10;
               File "/srv/bot/downloads/notes.txt" 1 1] (100 * MB) true []).

(** Every clip directly inside the output folder is one the history or the
    ready cache refers to. *)
Definition swept (cfg : config) (st : state) : Prop :=
  forall f name,
    f ∈ d_files (fs st) ->
    name_in (OUTPUT_PATH cfg) (f_path f) = Some name ->
    endswith (lower name) ".mp4" = true ->
    f_path f ∈ _keep_set st.

(** Nothing is left for the enforcer to reclaim once the history is empty:
    the ready cache is empty and the folder holds no untracked clip. *)
Definition drained (cfg : config) (st : state) : Prop :=
  VIDEO_CACHE st = [] /\ untracked_candidates cfg st = [].

(** [s] differs from [s0] by discoveries only: neither the ready cache, the
    history, the cursor, the metadata nor the disk has changed. *)
Definition same_but_discovery (s0 s : state) : Prop :=
  VIDEO_CACHE s = VIDEO_CACHE s0
  /\ PLAYED_VIDEOS s = PLAYED_VIDEOS s0
  /\ CURRENT_INDEX s = CURRENT_INDEX s0
  /\ METADATA_BY_PATH s = METADATA_BY_PATH s0
  /\ fs s = fs s0.

(** The queue of [s] is that of [s0] followed by the links [new], which are
    the newest entries of a consistent tracker and were each counted. *)
Definition refilled (s0 s : state) (new : list string) : Prop :=
  seen_ok s
  /\ VIDEO_QUEUE s = VIDEO_QUEUE s0 ++ new
  /\ new `suffix_of` SEEN_URLS s
  /\ Forall (fun u => u <> "") new
  /\ PRELOAD_COUNTER s = PRELOAD_COUNTER s0 + Z.of_nat (length new)
  /\ same_but_discovery s0 s.

(** A browser that shows one new link at every discovery. *)
Definition fresh_feed (k : nat) (attempt : nat) : list string := [video_url (pretty k)].

(** The history is [h] and the cursor is [c]. *)
Definition history_is (h : list string) (c : Z) (st : state) : Prop :=
  PLAYED_VIDEOS st = h /\ CURRENT_INDEX st = c.

(** The updates that concern the posting flow: a press of Post, with the
    globals at that moment, and a text message. *)
Inductive update :=
| press_post (chat : option Z) (sent : option Z) (s : state)
| text_update (chat : option Z) (text : option string) (sent : option Z).

(** The chat whose flow an update addresses. *)
Definition chat_of (TELEGRAM_CHAT_ID : Z) (u : update) : option Z :=
  match u with
  | press_post chat _ _ => Some (default TELEGRAM_CHAT_ID chat)
  | text_update chat _ _ => chat
  end.

Definition handle (TELEGRAM_CHAT_ID : Z) (u : update) (pending : gmap Z main.flow)
    : gmap Z main.flow * list main.bot_call * main.handler_end :=
  match u with
  | press_post chat sent s => main.post_video TELEGRAM_CHAT_ID chat sent pending s
  | text_update chat text sent => main.text_message_handler chat text sent pending
  end.

Definition handle_all (TELEGRAM_CHAT_ID : Z) (us : list update)
    (pending : gmap Z main.flow) : gmap Z main.flow :=
  foldl (fun p u => (handle TELEGRAM_CHAT_ID u p).1.1) pending us.

(** The creation of the posting task, and the notice that the post is being
    processed (the one message with the Next button). *)
Definition is_post (b : main.bot_call) : bool :=
  match b with
  | main.create_post_task _ _ _ => true
  | _ => false
  end.

Definition is_notice (b : main.bot_call) : bool :=
  match b with
  | main.send_message _ _ next_button => next_button
  | _ => false
  end.

(** The calls made in answer to the updates of chat [c]. *)
Fixpoint calls_for (TELEGRAM_CHAT_ID : Z) (c : Z) (us : list update)
    (pending : gmap Z main.flow) : list main.bot_call :=
  match us with
  | [] => []
  | u :: us' =>
      let r := handle TELEGRAM_CHAT_ID u pending in
      (if bool_decide (chat_of TELEGRAM_CHAT_ID u = Some c) then r.1.2 else [])
        ++ calls_for TELEGRAM_CHAT_ID c us' r.1.1
  end.

(** The presses of Post in chat [c]. *)
Definition is_press_for (TELEGRAM_CHAT_ID : Z) (c : Z) (u : update) : bool :=
  match u with
  | press_post _ _ _ => bool_decide (chat_of TELEGRAM_CHAT_ID u = Some c)
  | text_update _ _ _ => false
  end.

Definition presses_for (TELEGRAM_CHAT_ID : Z) (c : Z) (us : list update) : nat :=
  length (List.filter (is_press_for TELEGRAM_CHAT_ID c) us).

(** Whether the flow of chat [c] still waits for a reply. *)
Definition awaiting (c : Z) (pending : gmap Z main.flow) : nat :=
  match pending !! c with
  | Some f => if ((main.stage f =? 1) || (main.stage f =? 2))%bool then 1 else 0
  | None => 0
  end.

(** * Properties *)

(** ** Projections through the file-system helpers *)

Lemma safe_delete_fs (p : string) (s : state) :
  safe_delete p s = set_fs (fs (safe_delete p s)) s.
Proof.
  unfold safe_delete.
  destruct (negb (String.eqb p "") && os_path_exists p (fs s))%bool; [|by destruct s].
  destruct (os_remove p (fs s)); by destruct s.
Qed.

Lemma cleanup_loop_fs (f : state -> string -> state) (names : list string) (s : state) :
  (forall st name, f st name = set_fs (fs (f st name)) st) ->
  foldl f s names = set_fs (fs (foldl f s names)) s.
Proof.
  intros Hf. revert s. induction names as [|name names IH]; intros s; simpl.
  - by destruct s.
  - rewrite IH. rewrite (Hf s name) at 2. by destruct s.
Qed.

Lemma cleanup_files_fs (cfg : config) (s : state) :
  cleanup_files cfg s = set_fs (fs (cleanup_files cfg s)) s.
Proof.
  unfold cleanup_files. destruct (negb (d_isdir (fs s))); [by destruct s|].
  apply cleanup_loop_fs. intros st name.
  destruct (negb (endswith (lower name) ".mp4")); [by destruct st|].
  case_bool_decide; [by destruct st|]. apply safe_delete_fs.
Qed.

(** ** The seen-URL window *)

Lemma lastn_length {A} (n : nat) (l : list A) :
  length (lastn n l) = Nat.min n (length l).
Proof. unfold lastn. rewrite length_drop. lia. Qed.

Lemma lastn_snoc_short {A} (n : nat) (l : list A) (x : A) :
  (length l < n)%nat -> lastn n (l ++ [x]) = lastn n l ++ [x].
Proof.
  intros H. unfold lastn. rewrite length_app. simpl.
  replace (length l + 1 - n)%nat with 0%nat by lia.
  replace (length l - n)%nat with 0%nat by lia. done.
Qed.

Lemma lastn_snoc_full {A} (n : nat) (l : list A) (x : A) :
  (0 < n <= length l)%nat -> lastn n (l ++ [x]) = drop 1 (lastn n l) ++ [x].
Proof.
  intros H. unfold lastn. rewrite length_app. simpl.
  rewrite drop_drop. rewrite drop_app_le by lia.
  f_equal. f_equal. lia.
Qed.

Lemma lastn_all {A} (n : nat) (l : list A) : (length l <= n)%nat -> lastn n l = l.
Proof. intros H. unfold lastn. by replace (length l - n)%nat with 0%nat by lia. Qed.

Lemma SEEN_URLS_MAX_pos : (0 < SEEN_URLS_MAX)%nat.
Proof. unfold SEEN_URLS_MAX. lia. Qed.

Lemma add_seen_url_present (href : string) (s : state) :
  href ∈ PRELOADED_VIDEOS s -> add_seen_url href s = s.
Proof. intros H. unfold add_seen_url. by rewrite bool_decide_eq_true_2. Qed.

Lemma add_seen_url_room (href : string) (s : state) :
  href ∉ PRELOADED_VIDEOS s -> (length (SEEN_URLS s) < SEEN_URLS_MAX)%nat ->
  add_seen_url href s
  = set_seen (PRELOADED_VIDEOS s ∪ {[href]}) (SEEN_URLS s ++ [href]) s.
Proof.
  intros H Hlen. unfold add_seen_url. rewrite bool_decide_eq_false_2 by done.
  destruct (Nat.leb_spec SEEN_URLS_MAX (length (SEEN_URLS s))); [lia|done].
Qed.

Lemma add_seen_url_full (href oldest : string) (rest : list string) (s : state) :
  href ∉ PRELOADED_VIDEOS s -> SEEN_URLS s = oldest :: rest ->
  (SEEN_URLS_MAX <= length (SEEN_URLS s))%nat ->
  add_seen_url href s
  = set_seen ((PRELOADED_VIDEOS s ∖ {[oldest]}) ∪ {[href]}) (rest ++ [href]) s.
Proof.
  intros H Hs Hlen. unfold add_seen_url. rewrite bool_decide_eq_false_2 by done.
  destruct (Nat.leb_spec SEEN_URLS_MAX (length (SEEN_URLS s))); [|lia].
  by rewrite Hs.
Qed.

Lemma seen_inv_add (log : list string) (href : string) (s : state) :
  seen_inv log s ->
  seen_inv (log ++ (if bool_decide (href ∈ PRELOADED_VIDEOS s) then [] else [href]))
           (add_seen_url href s).
Proof.
  intros (Hseen & Hnd & Hmem).
  case_bool_decide as Hin.
  { rewrite add_seen_url_present by done. by rewrite app_nil_r. }
  assert (Hlen : length (SEEN_URLS s) = Nat.min SEEN_URLS_MAX (length log))
    by (rewrite Hseen; apply lastn_length).
  assert (Hnotin : href ∉ SEEN_URLS s) by (by rewrite <- Hmem).
  destruct (Nat.lt_ge_cases (length (SEEN_URLS s)) SEEN_URLS_MAX) as [Hlt|Hge].
  - rewrite add_seen_url_room by done. repeat split; simpl.
    + rewrite lastn_snoc_short by lia. by rewrite Hseen.
    + apply NoDup_app. split_and!; [done| |apply NoDup_singleton].
      intros x Hx ->%list_elem_of_singleton. done.
    + intros Hx. apply elem_of_app. apply elem_of_union in Hx as [Hx|Hx].
      * left. by apply Hmem.
      * right. apply elem_of_singleton in Hx. subst. apply list_elem_of_singleton. done.
    + intros Hx. apply elem_of_app in Hx as [Hx|Hx]; apply elem_of_union.
      * left. by apply Hmem.
      * right. apply list_elem_of_singleton in Hx. by apply elem_of_singleton.
  - destruct (SEEN_URLS s) as [|oldest rest] eqn:Hs.
    { pose proof SEEN_URLS_MAX_pos. simpl in Hge. exfalso. lia. }
    rewrite (add_seen_url_full href oldest rest) by (rewrite ?Hs; done).
    apply NoDup_cons in Hnd as [Hold Hrest].
    repeat split; simpl.
    + rewrite lastn_snoc_full by (pose proof SEEN_URLS_MAX_pos; lia).
      by rewrite <- Hseen.
    + apply NoDup_app. split_and!; [done| |apply NoDup_singleton].
      intros x Hx ->%list_elem_of_singleton. apply Hnotin. by right.
    + intros Hx. apply elem_of_app. apply elem_of_union in Hx as [Hx|Hx].
      * apply elem_of_difference in Hx as [Hx Hne]. apply Hmem in Hx.
        apply elem_of_cons in Hx as [->|Hx]; [|by left].
        exfalso. apply Hne. by apply elem_of_singleton.
      * right. apply elem_of_singleton in Hx. subst. by apply list_elem_of_singleton.
    + intros Hx. apply elem_of_app in Hx as [Hx|Hx]; apply elem_of_union.
      * left. apply elem_of_difference. split.
        -- apply Hmem. by right.
        -- intros ->%elem_of_singleton. done.
      * right. apply list_elem_of_singleton in Hx. by apply elem_of_singleton.
Qed.

Lemma seen_inv_mark_all (hrefs log : list string) (s : state) :
  seen_inv log s -> seen_inv (log ++ insertions hrefs s) (mark_all hrefs s).
Proof.
  revert log s. induction hrefs as [|href hrefs IH]; intros log s Hinv; simpl.
  - by rewrite app_nil_r.
  - rewrite app_assoc. apply IH. by apply seen_inv_add.
Qed.

Lemma seen_inv_initial (d : disk) : seen_inv [] (initial d).
Proof.
  repeat split; simpl.
  - apply NoDup_nil_2.
  - intros H. by apply not_elem_of_empty in H.
  - intros H. by apply elem_of_nil in H.
Qed.

(** On a window within its bound the defensive pruning changes nothing. *)
Lemma prune_seen_urls_noop (s : state) :
  (length (SEEN_URLS s) <= SEEN_URLS_MAX)%nat -> prune_seen_urls_if_needed s = s.
Proof.
  intros H. unfold prune_seen_urls_if_needed.
  destruct (SEEN_URLS s) as [|oldest rest] eqn:Hs; simpl.
  - destruct s; simpl in *; by subst.
  - destruct (Nat.ltb_spec SEEN_URLS_MAX (S (length rest))); [simpl in H; lia|].
    destruct s; simpl in *; by subst.
Qed.

Lemma add_seen_url_members (href x : string) (s : state) :
  x ∈ PRELOADED_VIDEOS (add_seen_url href s) -> x ∈ PRELOADED_VIDEOS s \/ x = href.
Proof.
  unfold add_seen_url. case_bool_decide; [by left|].
  destruct (SEEN_URLS_MAX <=? length (SEEN_URLS s))%nat; [destruct (SEEN_URLS s)|];
    simpl; intros [Hx|Hx%elem_of_singleton]%elem_of_union; try (by right); left; try done.
  by apply elem_of_difference in Hx as [Hx _].
Qed.

(** A run over pairwise distinct identifiers inserts every one of them. *)
Lemma insertions_distinct (hrefs : list string) (s : state) :
  NoDup hrefs -> (forall x, x ∈ PRELOADED_VIDEOS s -> x ∉ hrefs) ->
  insertions hrefs s = hrefs.
Proof.
  revert s. induction hrefs as [|href hrefs IH]; intros s Hnd Hfresh; simpl; [done|].
  apply NoDup_cons in Hnd as [Hnotin Hnd].
  rewrite bool_decide_eq_false_2.
  - simpl. f_equal. apply IH; [done|].
    intros x [Hx| ->]%add_seen_url_members; [|done].
    intros Hin. apply (Hfresh x Hx). by right.
  - intros Hin. apply (Hfresh href Hin). by left.
Qed.

(** C6.  After any run of [add_seen_url] calls from the empty tracker, an
    identifier is in [PRELOADED_VIDEOS] exactly when it is among the last
    [SEEN_URLS_MAX] = 250 identifiers the calls inserted, and those are
    pairwise distinct; the set and the order sequence hold the same
    identifiers; marking a present identifier changes nothing; marking a new
    one at capacity first drops the oldest-inserted identifier from the
    sequence and from the set.  When the calls name pairwise distinct
    identifiers, all of them are insertions. *)
Theorem seen_window_is_last_insertions (d : disk) (hrefs : list string) :
  let s := mark_all hrefs (initial d) in
  let log := insertions hrefs (initial d) in
  (forall x, x ∈ PRELOADED_VIDEOS s <-> x ∈ lastn 250 log)
  /\ NoDup (lastn 250 log)
  /\ (length (lastn 250 log) <= 250)%nat
  /\ SEEN_URLS s = lastn 250 log
  /\ (forall x, x ∈ PRELOADED_VIDEOS s <-> x ∈ SEEN_URLS s)
  /\ (forall href, href ∈ PRELOADED_VIDEOS s -> add_seen_url href s = s)
  /\ (forall href, href ∉ PRELOADED_VIDEOS s -> length (SEEN_URLS s) = 250%nat ->
        exists oldest rest,
          SEEN_URLS s = oldest :: rest
          /\ SEEN_URLS (add_seen_url href s) = rest ++ [href]
          /\ PRELOADED_VIDEOS (add_seen_url href s)
             = (PRELOADED_VIDEOS s ∖ {[oldest]}) ∪ {[href]}
          /\ (oldest ∉ SEEN_URLS (add_seen_url href s))
          /\ (oldest ∉ PRELOADED_VIDEOS (add_seen_url href s)))
  /\ (forall href, href ∉ PRELOADED_VIDEOS s -> (length (SEEN_URLS s) < 250)%nat ->
        SEEN_URLS (add_seen_url href s) = SEEN_URLS s ++ [href]
        /\ PRELOADED_VIDEOS (add_seen_url href s) = PRELOADED_VIDEOS s ∪ {[href]})
  /\ (NoDup hrefs -> log = hrefs).
Proof.
  intros s log.
  pose proof (seen_inv_mark_all hrefs [] (initial d) (seen_inv_initial d)) as Hinv.
  rewrite app_nil_l in Hinv. fold s log in Hinv.
  destruct Hinv as (Hseen & Hnd & Hmem).
  change 250%nat with SEEN_URLS_MAX.
  split_and!.
  - intros x. rewrite <- Hseen. apply Hmem.
  - by rewrite <- Hseen.
  - rewrite lastn_length. lia.
  - done.
  - done.
  - intros href Hin. by apply add_seen_url_present.
  - intros href Hnew Hfull.
    destruct (SEEN_URLS s) as [|oldest rest] eqn:Hs.
    { pose proof SEEN_URLS_MAX_pos. simpl in Hfull. exfalso. lia. }
    exists oldest, rest.
    rewrite (add_seen_url_full href oldest rest) by (rewrite ?Hs; try done; lia).
    apply NoDup_cons in Hnd as [Hold Hrest]. simpl.
    assert (Hne : href <> oldest).
    { intros ->. apply Hnew, Hmem. by left. }
    split_and!; try done.
    + intros [Hin|Hin%list_elem_of_singleton]%elem_of_app; [done|]. by subst.
    + intros [Hin|Hin%elem_of_singleton]%elem_of_union; [|by subst].
      apply elem_of_difference in Hin as [_ Hin]. apply Hin. by apply elem_of_singleton.
  - intros href Hnew Hroom. by rewrite add_seen_url_room.
  - intros Hdistinct. apply insertions_distinct; [done|].
    intros x Hx. by apply not_elem_of_empty in Hx.
Qed.

(** ** The steps of the reclamation ladder *)

(** Replaces calls of the file-system helpers by the state they return: the
    argument with another disk. *)
Ltac fs_only :=
  repeat match goal with
    | |- context [cleanup_files ?c ?s] =>
        rewrite (cleanup_files_fs c s); generalize (fs (cleanup_files c s)); intro
    | |- context [safe_delete ?p ?s] =>
        rewrite (safe_delete_fs p s); generalize (fs (safe_delete p s)); intro
    end.

Lemma disk_blind_safe_delete (P : state -> Prop) (p : string) (s : state) :
  disk_blind P -> P s -> P (safe_delete p s).
Proof. intros HP Hs. rewrite safe_delete_fs. by apply HP. Qed.

Lemma disk_blind_cleanup_files (P : state -> Prop) (cfg : config) (s : state) :
  disk_blind P -> P s -> P (cleanup_files cfg s).
Proof. intros HP Hs. rewrite cleanup_files_fs. by apply HP. Qed.

Lemma reclaim_untracked_fs (cfg : config) (s s' : state) :
  reclaim_untracked cfg s = Some s' -> exists d, s' = set_fs d s.
Proof.
  unfold reclaim_untracked.
  destruct (sort_by_key _ _) as [|p l]; [done|].
  intros [= <-]. eexists. apply safe_delete_fs.
Qed.

(** While the local cursor is unbound the history branch deletes nothing:
    it raises as soon as the history is not empty. *)
Lemma reclaim_history_unbound (s : state) :
  reclaim_history None s = if bool_decide (PLAYED_VIDEOS s = []) then nothing else raised.
Proof. unfold reclaim_history. by destruct (PLAYED_VIDEOS s). Qed.

(** With a history that is not empty the loop ends where it starts. *)
Lemma janitor_loop_history (cfg : config) (folder_bytes : Z) (fuel : nat) (s : state) :
  PLAYED_VIDEOS s <> [] -> janitor_loop cfg folder_bytes fuel None s = s.
Proof.
  intros Hh. destruct fuel as [|fuel]; simpl.
  - by destruct (constraints_ok cfg folder_bytes s).
  - destruct (constraints_ok cfg folder_bytes s); [done|].
    rewrite reclaim_history_unbound. by rewrite bool_decide_eq_false_2.
Qed.

(** Whatever the branches of the ladder that run preserve, the loop
    preserves. *)
Lemma janitor_loop_preserves (P : state -> Prop) (cfg : config) (folder_bytes : Z)
    (fuel : nat) (s : state) :
  (forall s s', P s -> reclaim_cache s = Some s' -> P s') ->
  (forall s s', P s -> reclaim_untracked cfg s = Some s' -> P s') ->
  P s -> P (janitor_loop cfg folder_bytes fuel None s).
Proof.
  intros Hc Hu. revert s. induction fuel as [|fuel IH]; intros s Hs; simpl.
  - by destruct (constraints_ok cfg folder_bytes s).
  - destruct (constraints_ok cfg folder_bytes s); [done|].
    rewrite reclaim_history_unbound. case_bool_decide; [|done].
    destruct (reclaim_cache s) as [s'|] eqn:E2; [by eapply IH, Hc|].
    destruct (reclaim_untracked cfg s) as [s'|] eqn:E3; [by eapply IH, Hu|done].
Qed.

Lemma enforce_disk_budget_preserves (P : state -> Prop) (cfg : config) (s : state) :
  disk_blind P ->
  (forall s s', P s -> reclaim_cache s = Some s' -> P s') ->
  P s -> P (enforce_disk_budget cfg s).
Proof.
  intros HP Hc Hs. unfold enforce_disk_budget.
  destruct (negb (d_isdir (fs s))); [done|].
  apply janitor_loop_preserves; try done.
  - intros s1 s2 H1 [d ->]%reclaim_untracked_fs. by apply HP.
  - by apply disk_blind_cleanup_files.
Qed.

(** With a history that is not empty the enforcer does no more than the
    sweep it starts with. *)
Lemma enforce_disk_budget_history (cfg : config) (s : state) :
  PLAYED_VIDEOS s <> [] -> enforce_disk_budget cfg s = cleanup_files cfg s.
Proof.
  intros Hh. unfold enforce_disk_budget.
  destruct (d_isdir (fs s)) eqn:Hdir; cbn [negb].
  - cbv zeta. apply janitor_loop_history. by rewrite cleanup_files_fs.
  - unfold cleanup_files. by rewrite Hdir.
Qed.

Lemma reclaim_cache_history (s s' : state) :
  reclaim_cache s = Some s' ->
  PLAYED_VIDEOS s' = PLAYED_VIDEOS s /\ CURRENT_INDEX s' = CURRENT_INDEX s.
Proof.
  unfold reclaim_cache. destruct (VIDEO_CACHE s); [done|]. intros [= <-].
  case_bool_decide; by fs_only.
Qed.

(** The enforcer never changes the history or the cursor. *)
Lemma enforce_disk_budget_cursor (cfg : config) (s : state) :
  PLAYED_VIDEOS (enforce_disk_budget cfg s) = PLAYED_VIDEOS s
  /\ CURRENT_INDEX (enforce_disk_budget cfg s) = CURRENT_INDEX s.
Proof.
  apply (enforce_disk_budget_preserves
           (fun st => PLAYED_VIDEOS st = PLAYED_VIDEOS s
                      /\ CURRENT_INDEX st = CURRENT_INDEX s)); [| |done].
  - by intros st d H.
  - intros st st' [H1 H2] (E1 & E2)%reclaim_cache_history. split; congruence.
Qed.

(** ** Capacities *)



Lemma deque_append_room {A} (maxlen : nat) (x : A) (d : list A) :
  (length d < maxlen)%nat -> deque_append maxlen x d = d ++ [x].
Proof.
  intros H. unfold deque_append.
  destruct (Nat.ltb_spec maxlen (length (d ++ [x]))) as [Hlt|Hge]; [|done].
  rewrite length_app in Hlt. simpl in Hlt. lia.
Qed.

Lemma deque_append_full {A} (maxlen : nat) (x : A) (d : list A) :
  (0 < maxlen)%nat -> length d = maxlen ->
  deque_append maxlen x d = drop 1 d ++ [x].
Proof.
  intros Hpos H. unfold deque_append.
  destruct (Nat.ltb_spec maxlen (length (d ++ [x]))) as [Hlt|Hge].
  - destruct d; [simpl in *; lia|done].
  - rewrite length_app in Hge. simpl in Hge. lia.
Qed.



Lemma push_played_video_history (cfg : config) (path : string) (upd : bool) (s : state) :
  PLAYED_VIDEOS (push_played_video cfg path upd s)
  = if (HISTORY_MAX <? length (PLAYED_VIDEOS s ++ [path]))%nat
    then drop 1 (PLAYED_VIDEOS s ++ [path])
    else PLAYED_VIDEOS s ++ [path].
Proof.
  unfold push_played_video. fs_only. simpl.
  destruct (HISTORY_MAX <? length (PLAYED_VIDEOS s ++ [path]))%nat.
  - destruct (PLAYED_VIDEOS s ++ [path]) as [|evicted rest] eqn:E.
    + by destruct upd.
    + destruct (negb (String.eqb evicted path)); fs_only; simpl;
        destruct (0 <? CURRENT_INDEX s); by destruct upd.
  - by destruct upd.
Qed.

Lemma push_played_video_window (cfg : config) (path : string) (upd : bool) (s : state)
    (log : list string) :
  PLAYED_VIDEOS s = lastn HISTORY_MAX log ->
  PLAYED_VIDEOS (push_played_video cfg path upd s) = lastn HISTORY_MAX (log ++ [path]).
Proof.
  intros Hs. rewrite push_played_video_history, Hs, length_app, lastn_length.
  change (length [path]) with 1%nat.
  match goal with |- context [(?a <? ?b)%nat] => destruct (Nat.ltb_spec a b) as [Hov|Hov] end.
  - unfold HISTORY_MAX in *. rewrite lastn_snoc_full by lia.
    assert (Hl : length (lastn 3 log) = 3%nat) by (rewrite lastn_length; lia).
    destruct (lastn 3 log); [done|]. done.
  - rewrite lastn_snoc_short; [done|]. unfold HISTORY_MAX in *. lia.
Qed.

Lemma push_played_video_containers (cfg : config) (path : string) (upd : bool) (s : state) :
  VIDEO_QUEUE (push_played_video cfg path upd s) = VIDEO_QUEUE s
  /\ VIDEO_CACHE (push_played_video cfg path upd s) = VIDEO_CACHE s
  /\ METADATA_BY_PATH (push_played_video cfg path upd s) = METADATA_BY_PATH s.
Proof.
  unfold push_played_video. fs_only. simpl.
  destruct (HISTORY_MAX <? length (PLAYED_VIDEOS s ++ [path]))%nat.
  - destruct (PLAYED_VIDEOS s ++ [path]) as [|evicted rest] eqn:E.
    + by destruct upd.
    + destruct (negb (String.eqb evicted path)); fs_only; simpl;
        destruct (0 <? CURRENT_INDEX s); by destruct upd.
  - by destruct upd.
Qed.


Lemma cache_churn_full (s : state) (old_file : string) (rest : list string) :
  VIDEO_CACHE s = old_file :: rest ->
  length (VIDEO_CACHE s) = VIDEO_CACHE_maxlen ->
  downloader.cache_churn s
  = set_METADATA_BY_PATH (delete old_file (METADATA_BY_PATH s))
      (set_fs (default (fs s) (os_remove old_file (fs s))) (set_VIDEO_CACHE rest s)).
Proof.
  intros Hs H. unfold downloader.cache_churn.
  rewrite H, Nat.eqb_refl, Hs. simpl.
  destruct (os_remove old_file (fs s)); simpl; by destruct s.
Qed.




Lemma send_video_globals (lazy_meta : option downloader.extracted) (p : string) (i : Z)
    (s : state) :
  exists m, (main.send_video lazy_meta p i s).1 = set_METADATA_BY_PATH m s.
Proof.
  unfold main.send_video.
  destruct (negb (os_path_exists p (fs s))); simpl.
  - exists (METADATA_BY_PATH s). by destruct s.
  - destruct (METADATA_BY_PATH s !! p).
    + exists (METADATA_BY_PATH s). by destruct s.
    + by eexists.
Qed.

Lemma present_globals (lazy_meta : option downloader.extracted) (i : Z) (s : state) :
  exists m, (main.present lazy_meta i s).1 = set_METADATA_BY_PATH m s.
Proof.
  unfold main.present.
  destruct ((0 <=? i) && (i <? Z.of_nat (length (PLAYED_VIDEOS s))))%bool;
    [destruct (PLAYED_VIDEOS s !! Z.to_nat i)|];
    try apply send_video_globals; exists (METADATA_BY_PATH s); by destruct s.
Qed.




Lemma get_fresh_video_link_globals (pages : nat -> list string) (s : state) :
  exists pre seen n,
    (scraper.get_fresh_video_link pages s).1 = set_PRELOAD_COUNTER n (set_seen pre seen s).
Proof.
  unfold scraper.get_fresh_video_link. generalize 0%nat 5%nat. intros a r.
  revert a. induction r as [|r IH]; intros a; simpl.
  - exists (PRELOADED_VIDEOS s), (SEEN_URLS s), (PRELOAD_COUNTER s). by destruct s.
  - destruct (scraper.pick_fresh (pages a) s) as [href|]; [|apply IH]. simpl.
    unfold scraper.note_fresh, prune_seen_urls_if_needed.
    destruct (prune_loop _ _) as [seen pre]. do 3 eexists.
    unfold add_seen_url. case_bool_decide; [by destruct s|].
    match goal with |- context [let '(_, _) := ?x in _] => destruct x end.
    done.
Qed.








(** The containers do fill up: after three links the queue is full and
    drops its oldest link for the next one. *)
Lemma queue_drops_oldest_when_full :
  let s := run_ops (example_config 1024 2048)
             [op_queue_append (video_url "1"); op_queue_append (video_url "2");
              op_queue_append (video_url "3")] (initial roomy_disk) in
  VIDEO_QUEUE s = [video_url "1"; video_url "2"; video_url "3"]
  /\ VIDEO_QUEUE (run_op (example_config 1024 2048) (op_queue_append (video_url "4")) s)
     = [video_url "2"; video_url "3"; video_url "4"].
Proof. by vm_compute. Qed.

(** ** Eviction ahead of the download *)

Lemma existsb_filter_out (p : string) (files : list file) :
  existsb (fun f => String.eqb (f_path f) p)
    (List.filter (fun f => negb (String.eqb (f_path f) p)) files) = false.
Proof.
  induction files as [|f files IH]; simpl; [done|].
  destruct (String.eqb (f_path f) p) eqn:E; simpl; [done|]. by rewrite E.
Qed.

Lemma os_remove_gone (p : string) (d : disk) :
  os_path_exists p (default d (os_remove p d)) = false.
Proof.
  unfold os_remove. destruct (os_path_exists p d) eqn:E; simpl; [|done].
  unfold os_path_exists. simpl. rewrite existsb_filter_out. apply andb_false_r.
Qed.

Lemma os_remove_logged (p : string) (d : disk) :
  os_path_exists p d = true ->
  d_removed (default d (os_remove p d)) = d_removed d ++ [p].
Proof. intros E. unfold os_remove. by rewrite E. Qed.

Lemma ensure_folder_files (cfg : config) (folder : string) (s : state) :
  exists b,
    downloader.ensure_folder cfg folder s
    = set_fs (Disk (d_files (fs s)) (d_free (fs s)) b (d_removed (fs s))) s.
Proof.
  unfold downloader.ensure_folder. destruct (String.eqb folder (OUTPUT_PATH cfg)).
  - by exists true.
  - exists (d_isdir (fs s)). by destruct s as [? ? ? ? ? ? ? ? []].
Qed.

(** C10.  A download requested while the ready cache is full evicts the
    oldest cached artifact first: when the download is then skipped for its
    duration or fails, nothing is returned or inserted, and the cache is left
    one element shorter, the evicted file gone from the disk and its
    metadata entry purged. *)
Theorem rejected_download_still_evicts (cfg : config) (meta : option downloader.extracted)
    (run : downloader.yt_dlp_result) (video_url output_folder : string) (s : state)
    (old_file : string) (rest : list string) :
  VIDEO_CACHE s = old_file :: rest ->
  length (VIDEO_CACHE s) = 3%nat ->
  downloader.out_of_bounds meta = true \/ run = downloader.dl_failed ->
  let r := downloader.download_video cfg meta run video_url output_folder s in
  r.2 = None
  /\ VIDEO_CACHE r.1 = rest
  /\ length (VIDEO_CACHE r.1) = 2%nat
  /\ os_path_exists old_file (fs r.1) = false
  /\ METADATA_BY_PATH r.1 !! old_file = None
  /\ (os_path_exists old_file (fs s) = true ->
      d_removed (fs r.1) = d_removed (fs s) ++ [old_file])
  /\ PLAYED_VIDEOS r.1 = PLAYED_VIDEOS s
  /\ CURRENT_INDEX r.1 = CURRENT_INDEX s.
Proof.
  intros Hs Hfull Hrej r.
  assert (Hr : r = (downloader.cache_churn (downloader.ensure_folder cfg output_folder s),
                    None)).
  { subst r. unfold downloader.download_video.
    destruct (downloader.out_of_bounds meta); [done|].
    destruct Hrej as [?| ->]; done. }
  rewrite Hr. simpl.
  destruct (ensure_folder_files cfg output_folder s) as [b ->].
  rewrite (cache_churn_full _ old_file rest) by (simpl; done).
  simpl. rewrite Hs in Hfull. simpl in Hfull.
  set (d := Disk (d_files (fs s)) (d_free (fs s)) b (d_removed (fs s))).
  split_and!; try done.
  - lia.
  - apply os_remove_gone.
  - apply lookup_delete_eq.
  - intros E. by rewrite os_remove_logged.
Qed.

Lemma rejected_download_still_evicts_witness :
  let r := downloader.download_video (example_config 1024 0)
             (Some (downloader.Extracted 60%Q "too long" [])) (downloader.dl_ok MB 9)
             "https://www.tiktok.com/@u/video/4" "/srv/bot/downloads" full_cache_state in
  r.2 = None
  /\ VIDEO_CACHE r.1 = [clip "2"; clip "3"]
  /\ os_path_exists (clip "1") (fs r.1) = false
  /\ METADATA_BY_PATH r.1 !! clip "1" = None
  /\ d_removed (fs r.1) = [clip "1"].
Proof.
  intros r.
  destruct (rejected_download_still_evicts (example_config 1024 0)
              (Some (downloader.Extracted 60%Q "too long" [])) (downloader.dl_ok MB 9)
              "https://www.tiktok.com/@u/video/4" "/srv/bot/downloads" full_cache_state
              (clip "1") [clip "2"; clip "3"] eq_refl eq_refl (or_introl eq_refl))
    as (H1 & H2 & _ & H4 & H5 & H6 & _).
  split; [exact H1|]. split; [exact H2|]. split; [exact H4|]. split; [exact H5|].
  apply H6. reflexivity.
Defined.

(** ** The disk budget enforcer *)

(** Once the folder was measured above the quota, the check the loop repeats
    cannot succeed, whatever has been deleted in between: [folder_bytes] is
    the measurement taken before the loop. *)
Lemma constraints_ok_stale (cfg : config) (folder_bytes : Z) (s : state) :
  OUTPUT_DISK_QUOTA_MB cfg * 1024 * 1024 < folder_bytes ->
  constraints_ok cfg folder_bytes s = false.
Proof.
  intros H. unfold constraints_ok.
  destruct (Z.leb_spec folder_bytes (OUTPUT_DISK_QUOTA_MB cfg * 1024 * 1024)); [lia|done].
Qed.

(** ** The history cursor *)

Lemma cursor_ok_nonempty (s : state) :
  cursor_ok s -> PLAYED_VIDEOS s <> [] ->
  0 <= CURRENT_INDEX s < Z.of_nat (length (PLAYED_VIDEOS s)).
Proof. intros [[H|H] Hiff] Hne; [done|]. by apply Hiff in H. Qed.

Lemma cursor_ok_valid (s : state) :
  0 <= CURRENT_INDEX s < Z.of_nat (length (PLAYED_VIDEOS s)) -> cursor_ok s.
Proof.
  intros H. split; [by left|]. split; [lia|].
  intros E. rewrite E in H. simpl in H. lia.
Qed.

Lemma push_played_video_cursor (cfg : config) (path : string) (upd : bool) (s : state) :
  CURRENT_INDEX (push_played_video cfg path upd s)
  = if upd then Z.of_nat (length (PLAYED_VIDEOS (push_played_video cfg path upd s))) - 1
    else if ((HISTORY_MAX <? length (PLAYED_VIDEOS s ++ [path]))%nat
             && (0 <? CURRENT_INDEX s))%bool
         then CURRENT_INDEX s - 1
         else CURRENT_INDEX s.
Proof.
  rewrite push_played_video_history.
  unfold push_played_video. fs_only. simpl.
  destruct (HISTORY_MAX <? length (PLAYED_VIDEOS s ++ [path]))%nat; simpl.
  - destruct (PLAYED_VIDEOS s ++ [path]) as [|evicted rest] eqn:E.
    + by destruct (PLAYED_VIDEOS s).
    + destruct (negb (String.eqb evicted path)); fs_only; simpl;
        destruct (0 <? CURRENT_INDEX s); by destruct upd.
  - by destruct upd.
Qed.

Lemma push_played_video_cursor_ok (cfg : config) (path : string) (upd : bool) (s : state) :
  cursor_ok s -> upd = true \/ PLAYED_VIDEOS s <> [] ->
  cursor_ok (push_played_video cfg path upd s).
Proof.
  intros Hok Hside. apply cursor_ok_valid.
  rewrite push_played_video_cursor, push_played_video_history.
  assert (Hlen : length (PLAYED_VIDEOS s ++ [path]) = S (length (PLAYED_VIDEOS s)))
    by (rewrite length_app; simpl; lia).
  destruct upd.
  - destruct (Nat.ltb_spec HISTORY_MAX (length (PLAYED_VIDEOS s ++ [path]))).
    + rewrite length_drop. unfold HISTORY_MAX in *. lia.
    + lia.
  - destruct Hside as [|Hne]; [done|].
    pose proof (cursor_ok_nonempty s Hok Hne) as Hci.
    destruct (Nat.ltb_spec HISTORY_MAX (length (PLAYED_VIDEOS s ++ [path]))); simpl.
    + rewrite length_drop. destruct (Z.ltb_spec 0 (CURRENT_INDEX s)); lia.
    + lia.
Qed.

Lemma prev_video_cursor_ok (lazy_meta : option downloader.extracted) (s : state) :
  cursor_ok s -> cursor_ok (main.prev_video lazy_meta s).1.
Proof.
  intros Hok. unfold main.prev_video.
  destruct (Z.ltb_spec 0 (CURRENT_INDEX s)) as [Hpos|]; [|done].
  match goal with |- context [main.present ?l ?i ?x] =>
    destruct (present_globals l i x) as [m Hm]; destruct (main.present l i x) end.
  simpl in *. subst. apply cursor_ok_valid. simpl.
  destruct Hok as [[H|H] _]; lia.
Qed.

Lemma enforce_disk_budget_cursor_ok (cfg : config) (s : state) :
  cursor_ok s -> cursor_ok (enforce_disk_budget cfg s).
Proof.
  intros Hok. destruct (enforce_disk_budget_cursor cfg s) as [E1 E2].
  unfold cursor_ok. by rewrite E1, E2.
Qed.

(** C5, as the code has it.  In every state reached by pushes that advance
    the cursor or extend a non-empty history, by moves to the previous
    artifact, and by runs of the enforcer, the cursor is a valid index into
    the history, or [-1], and it is [-1] exactly when the history is
    empty. *)
Theorem cursor_stays_valid (cfg : config) (s : state) :
  cursor_reachable cfg s -> cursor_ok s.
Proof.
  induction 1 as [d|path upd s _ IH Hside|lazy_meta s _ IH|s _ IH|s s' _ IH Eh Ec].
  - split; [by right|done].
  - by apply push_played_video_cursor_ok.
  - by apply prev_video_cursor_ok.
  - by apply enforce_disk_budget_cursor_ok.
  - unfold cursor_ok. by rewrite Eh, Ec.
Qed.

(** C5 as stated fails on a push that does not advance the cursor: on the
    empty history it leaves the cursor at [-1] beside a non-empty history. *)
Lemma cursor_invalid_after_quiet_push :
  ~ cursor_ok (push_played_video (example_config 1024 2048) (clip "1") false
                 (initial roomy_disk)).
Proof. intros [_ [H _]]. by specialize (H eq_refl). Qed.

Lemma cursor_stays_valid_witness :
  cursor_ok after_enforcement
  /\ PLAYED_VIDEOS after_enforcement = [clip "1"; clip "1"]
  /\ CURRENT_INDEX after_enforcement = 1.
Proof.
  split; [|by vm_compute].
  apply (cursor_stays_valid (example_config 1024 2048)).
  apply reach_enforce.
  eapply (reach_other _
            (push_played_video (example_config 1024 2048) (clip "1") true
               (push_played_video (example_config 1024 2048) (clip "1") true
                  (initial roomy_disk)))).
  - apply reach_push; [|by left]. apply reach_push; [|by left]. apply reach_initial.
  - by vm_compute.
  - by vm_compute.
Defined.

(** ** Navigation *)

(** With a ready artifact, "next" appends it to the history and sets the
    cursor to the last index. *)
Lemma next_appends_and_advances (cfg : config) (meta : option downloader.extracted)
    (run : downloader.yt_dlp_result) (lazy_meta : option downloader.extracted) (s : state)
    (next_path : string) (rest : list string) :
  VIDEO_CACHE s = next_path :: rest ->
  let s' := (main._handle_next_action cfg meta run lazy_meta s).1 in
  last (PLAYED_VIDEOS s') = Some next_path
  /\ CURRENT_INDEX s' = Z.of_nat (length (PLAYED_VIDEOS s')) - 1
  /\ PLAYED_VIDEOS s' !! Z.to_nat (CURRENT_INDEX s') = Some next_path.
Proof.
  intros Hc. unfold main._handle_next_action. rewrite Hc.
  set (s1 := push_played_video cfg next_path true (set_VIDEO_CACHE rest s)).
  destruct (present_globals lazy_meta (CURRENT_INDEX s) s1) as [m Hm].
  destruct (main.present lazy_meta (CURRENT_INDEX s) s1) as [s2 evs].
  simpl in *. subst s2. simpl.
  assert (Hlast : last (PLAYED_VIDEOS s1) = Some next_path).
  { subst s1. rewrite push_played_video_history. simpl PLAYED_VIDEOS.
    destruct (Nat.ltb_spec HISTORY_MAX (length (PLAYED_VIDEOS s ++ [next_path]))) as [Hlt|Hge].
    - destruct (PLAYED_VIDEOS s) as [|a l]; [simpl in Hlt; unfold HISTORY_MAX in Hlt; lia|].
      simpl. rewrite drop_0. apply last_snoc.
    - apply last_snoc. }
  assert (Hcur : CURRENT_INDEX s1 = Z.of_nat (length (PLAYED_VIDEOS s1)) - 1).
  { subst s1. by rewrite push_played_video_cursor. }
  split_and!; try done.
  rewrite Hcur. rewrite last_lookup in Hlast.
  replace (Z.to_nat (Z.of_nat (length (PLAYED_VIDEOS s1)) - 1))
    with (pred (length (PLAYED_VIDEOS s1))) by lia.
  done.
Qed.

(** What "next" hands to [send_video] is the entry at the index the cursor had
    when the handler was entered. *)
Lemma next_presents_at_entry_cursor (cfg : config) (meta : option downloader.extracted)
    (run : downloader.yt_dlp_result) (lazy_meta : option downloader.extracted) (s : state)
    (next_path : string) (rest : list string) :
  VIDEO_CACHE s = next_path :: rest ->
  (main._handle_next_action cfg meta run lazy_meta s).2
  = main.ev_log ("Moved ready video to played: " +:+ next_path)
      :: (main.present lazy_meta (CURRENT_INDEX s)
            (push_played_video cfg next_path true (set_VIDEO_CACHE rest s))).2.
Proof.
  intros Hc. unfold main._handle_next_action. rewrite Hc.
  by destruct (main.present _ _ _).
Qed.

(** C7, at the second "next" after start-up: clip 2 is taken from the ready
    cache and appended, the cursor moves to it at index 2, and what is
    presented is the entry at index 1, clip 1. *)
Theorem next_presents_entry_under_old_cursor :
  let cfg := example_config 1024 2048 in
  let r := main._handle_next_action cfg short_clip (downloader.dl_ok (10 * MB) 3) None
             after_first_next in
  VIDEO_CACHE after_first_next = [clip "2"]
  /\ CURRENT_INDEX after_first_next = 1
  /\ PLAYED_VIDEOS r.1 = [clip "1"; clip "1"; clip "2"]
  /\ CURRENT_INDEX r.1 = 2
  /\ PLAYED_VIDEOS r.1 !! Z.to_nat (CURRENT_INDEX r.1) = Some (clip "2")
  /\ r.2 = [main.ev_log ("Moved ready video to played: " +:+ clip "2");
            main.ev_send_video (clip "1") 1].
Proof. intros cfg r. by vm_compute. Qed.

(** C8, as the code has it.  With the ready cache and the discovery queue
    both empty, "next" leaves every global and the disk as they are and only
    writes a warning to the log: nothing is served, nothing is sent to the
    requester, and the handler returns without another attempt. *)
Theorem next_with_nothing_left (cfg : config) (meta : option downloader.extracted)
    (run : downloader.yt_dlp_result) (lazy_meta : option downloader.extracted) (s : state) :
  VIDEO_CACHE s = [] -> VIDEO_QUEUE s = [] ->
  main._handle_next_action cfg meta run lazy_meta s
  = (s, [main.ev_log "[WARNING] No URL in queue for Next"])
  /\ filter (fun e => to_requester e = true)
       (main._handle_next_action cfg meta run lazy_meta s).2 = [].
Proof.
  intros Hc Hq. unfold main._handle_next_action. rewrite Hc, Hq. done.
Qed.

Lemma next_with_nothing_left_witness :
  main._handle_next_action (example_config 1024 2048) short_clip
    (downloader.dl_ok (10 * MB) 3) None (initial roomy_disk)
  = (initial roomy_disk, [main.ev_log "[WARNING] No URL in queue for Next"]).
Proof.
  apply (next_with_nothing_left (example_config 1024 2048) short_clip
           (downloader.dl_ok (10 * MB) 3) None (initial roomy_disk) eq_refl eq_refl).
Defined.

(** C8 as stated fails: no response is surfaced to the requester. *)
Lemma nothing_surfaced_when_empty :
  ~ surfaced (main._handle_next_action (example_config 1024 2048) short_clip
                (downloader.dl_ok (10 * MB) 3) None (initial roomy_disk)).2.
Proof.
  intros (e & Hin & He). simpl in Hin.
  apply list_elem_of_singleton in Hin. by subst.
Qed.

(** ** The browser recycler *)

Lemma note_fresh_counter (href : string) (s : state) :
  PRELOAD_COUNTER (scraper.note_fresh href s) = PRELOAD_COUNTER s + 1.
Proof.
  unfold scraper.note_fresh, prune_seen_urls_if_needed.
  destruct (prune_loop _ _) as [seen pre]. simpl.
  unfold add_seen_url. case_bool_decide; [done|].
  match goal with |- context [let '(_, _) := ?x in _] => destruct x end.
  done.
Qed.

Lemma recycle_without_sampling (cfg : config) (psutil : bool) (rss_bytes : option Z)
    (res : main.session_result) (g : main.globals) :
  psutil = false \/ rss_bytes = None ->
  main.PRELOAD_COUNTER g < BROWSER_RESTART_PRELOADS ->
  main._recycle_browser_if_needed cfg psutil rss_bytes res g = (g, false).
Proof.
  intros Hs Hc. unfold main._recycle_browser_if_needed, main.need_restart.
  assert (Hrss : (if psutil then current_process_rss_mb psutil rss_bytes else -1) = -1).
  { destruct Hs as [->| ->]; [done|]. by destruct psutil. }
  rewrite Hrss.
  destruct (Z.leb_spec BROWSER_RESTART_PRELOADS (main.PRELOAD_COUNTER g)); [lia|].
  by rewrite andb_false_r.
Qed.

(** The counter the recycler reads is never raised: without memory samples
    no sequence of discoveries and checks restarts the browser. *)
Lemma no_restart_without_sampling (cfg : config) (ops : list background_op)
    (s : state) (g : main.globals) (n : nat) :
  sampling_unavailable ops ->
  main.PRELOAD_COUNTER g < BROWSER_RESTART_PRELOADS ->
  (run_backgrounds cfg ops (s, g, n)).1.2 = g
  /\ (run_backgrounds cfg ops (s, g, n)).2 = n.
Proof.
  intros Hops Hc. revert s. induction Hops as [|o ops Ho _ IH]; intros s; [done|].
  unfold run_backgrounds. simpl. destruct o as [pages|psutil rss_bytes res].
  - apply IH.
  - rewrite recycle_without_sampling by done. apply IH.
Qed.

(** When the recycler does restart with the session re-established, the
    counter it reads is zero afterwards. *)
Lemma recycle_resets_counter (cfg : config) (psutil : bool) (rss_bytes : option Z)
    (g : main.globals) :
  (main._recycle_browser_if_needed cfg psutil rss_bytes main.session_ok g).2 = true ->
  main.PRELOAD_COUNTER
    (main._recycle_browser_if_needed cfg psutil rss_bytes main.session_ok g).1 = 0.
Proof.
  unfold main._recycle_browser_if_needed.
  by destruct (main.need_restart _ _ _).
Qed.

(** C4, after two hundred fresh discoveries with memory sampling
    unavailable: the counter the discoveries raise stands at the restart
    threshold, the counter the recycler reads is still zero, and the check
    does not restart the browser. *)
Theorem recycler_misses_discovery_counter :
  let cfg := example_config 1024 2048 in
  let w := run_backgrounds cfg
             (discoveries 200 ++ [bg_recycle false None main.session_ok])
             (initial roomy_disk, main.initial_globals roomy_disk, 0%nat) in
  PRELOAD_COUNTER w.1.1 = 200
  /\ BROWSER_RESTART_PRELOADS <= PRELOAD_COUNTER w.1.1
  /\ main.PRELOAD_COUNTER w.1.2 = 0
  /\ w.2 = 0%nat.
Proof. intros cfg w. by vm_compute. Qed.

(** ** Eviction and the evicted file *)

Lemma existsb_filter_other (p q : string) (files : list file) :
  p <> q ->
  existsb (fun f => String.eqb (f_path f) p)
    (List.filter (fun f => negb (String.eqb (f_path f) q)) files)
  = existsb (fun f => String.eqb (f_path f) p) files.
Proof.
  intros Hne. induction files as [|f files IH]; simpl; [done|].
  destruct (String.eqb_spec (f_path f) q) as [Eq|Hq]; simpl.
  - destruct (String.eqb_spec (f_path f) p); [congruence|done].
  - by rewrite IH.
Qed.

Lemma times_removed_snoc (p q : string) (removed : list string) :
  length (List.filter (String.eqb p) (removed ++ [q]))
  = (length (List.filter (String.eqb p) removed) + (if String.eqb p q then 1 else 0))%nat.
Proof.
  rewrite List.filter_app, length_app. simpl. by destruct (String.eqb p q).
Qed.

Lemma safe_delete_other (p q : string) (s : state) :
  p <> q ->
  os_path_exists p (fs (safe_delete q s)) = os_path_exists p (fs s)
  /\ times_removed p (fs (safe_delete q s)) = times_removed p (fs s).
Proof.
  intros Hne. unfold safe_delete.
  destruct (negb (String.eqb q "") && os_path_exists q (fs s))%bool; [|done].
  unfold os_remove. destruct (os_path_exists q (fs s)); [|done]. simpl.
  unfold os_path_exists, times_removed. simpl.
  rewrite existsb_filter_other by done. rewrite times_removed_snoc.
  destruct (String.eqb_spec p q); [done|]. split; [done|lia].
Qed.

Lemma safe_delete_missing (p : string) (s : state) :
  os_path_exists p (fs s) = false -> safe_delete p s = s.
Proof. intros E. unfold safe_delete. rewrite E. by rewrite andb_false_r. Qed.

Lemma safe_delete_present (p : string) (s : state) :
  os_path_exists p (fs s) = true ->
  os_path_exists p (fs (safe_delete p s)) = false
  /\ times_removed p (fs (safe_delete p s)) = S (times_removed p (fs s)).
Proof.
  intros E. unfold safe_delete.
  assert (Hp : negb (String.eqb p "") = true).
  { unfold os_path_exists in E. by apply andb_true_iff in E as [E _]. }
  rewrite Hp, E. simpl.
  pose proof (os_remove_gone p (fs s)) as Hgone.
  pose proof (os_remove_logged p (fs s) E) as Hlog.
  destruct (os_remove p (fs s)) as [d|] eqn:Er.
  - simpl in *. split; [done|]. unfold times_removed. rewrite Hlog, times_removed_snoc.
    rewrite String.eqb_refl. lia.
  - unfold os_remove in Er. by rewrite E in Er.
Qed.

(** The sweep only applies [safe_delete] to paths outside the keep set. *)
Lemma cleanup_files_sweeps (P : state -> Prop) (cfg : config) (s : state) :
  (forall q st, q ∉ _keep_set s -> P st -> P (safe_delete q st)) ->
  P s -> P (cleanup_files cfg s).
Proof.
  intros Hstep. unfold cleanup_files.
  destruct (negb (d_isdir (fs s))); [done|].
  generalize (os_listdir (OUTPUT_PATH cfg) (fs s)). intros names.
  set (keep := _keep_set s) in *. clearbody keep. revert s.
  induction names as [|name names IH]; intros st Hst; simpl; [done|].
  apply IH. destruct (negb (endswith (lower name) ".mp4")); [done|].
  case_bool_decide; [done|]. by apply Hstep.
Qed.

Lemma cleanup_files_missing (cfg : config) (p : string) (n : nat) (s : state) :
  os_path_exists p (fs s) = false /\ times_removed p (fs s) = n ->
  os_path_exists p (fs (cleanup_files cfg s)) = false
  /\ times_removed p (fs (cleanup_files cfg s)) = n.
Proof.
  apply (cleanup_files_sweeps
           (fun st => os_path_exists p (fs st) = false /\ times_removed p (fs st) = n)).
  intros q st _ [He Hn]. destruct (decide (p = q)) as [<-|Hne].
  - by rewrite safe_delete_missing.
  - destruct (safe_delete_other p q st Hne) as [-> ->]. done.
Qed.

Lemma cleanup_files_kept (cfg : config) (p : string) (s : state) :
  p ∈ _keep_set s ->
  os_path_exists p (fs (cleanup_files cfg s)) = os_path_exists p (fs s)
  /\ times_removed p (fs (cleanup_files cfg s)) = times_removed p (fs s).
Proof.
  intros Hkeep.
  apply (cleanup_files_sweeps
           (fun st => os_path_exists p (fs st) = os_path_exists p (fs s)
                      /\ times_removed p (fs st) = times_removed p (fs s))); [|done].
  intros q st Hq [He Hn].
  assert (Hne : p <> q) by (intros ->; done).
  destruct (safe_delete_other p q st Hne) as [-> ->]. done.
Qed.

(** The shape of a push on a full history. *)
Lemma push_played_video_overflow (cfg : config) (path : string) (upd : bool) (s : state)
    (evicted : string) (rest : list string) :
  PLAYED_VIDEOS s = evicted :: rest -> length (PLAYED_VIDEOS s) = HISTORY_MAX ->
  exists ci,
    push_played_video cfg path upd s
    = cleanup_files cfg
        (set_CURRENT_INDEX ci
           (let s0 := set_PLAYED_VIDEOS (rest ++ [path]) s in
            if negb (String.eqb evicted path) then safe_delete evicted s0 else s0)).
Proof.
  intros Hs Hlen. unfold push_played_video.
  assert (Hov : (HISTORY_MAX <? length (PLAYED_VIDEOS
                   (set_PLAYED_VIDEOS (PLAYED_VIDEOS s ++ [path]) s)))%nat = true).
  { apply Nat.ltb_lt. destruct s. simpl in *. rewrite length_app. simpl. lia. }
  rewrite Hov. clear Hov Hlen.
  destruct s as [q c pre seen hist ci n m d]. simpl in Hs. subst hist.
  unfold set_PLAYED_VIDEOS. simpl.
  destruct (negb (String.eqb evicted path)).
  - rewrite (safe_delete_fs evicted). unfold set_fs, set_CURRENT_INDEX. simpl.
    destruct (0 <? ci); destruct upd; simpl; by eexists.
  - unfold set_CURRENT_INDEX. simpl.
    destruct (0 <? ci); destruct upd; simpl; by eexists.
Qed.

(** C3, as the code has it.  A push on a full history deletes the evicted
    entry's file exactly once, unless the evicted path is the pushed path, in
    which case neither the file nor its metadata entry is touched.  The
    eviction a download performs on a full ready cache deletes the evicted
    file exactly once and removes its metadata entry, whatever path the
    download is about to insert. *)
Theorem eviction_deletes_evicted_file (cfg : config) :
  (forall (path : string) (update_index : bool) (s : state) (evicted : string)
          (rest : list string),
      PLAYED_VIDEOS s = evicted :: rest -> length (PLAYED_VIDEOS s) = 3%nat ->
      os_path_exists evicted (fs s) = true ->
      let s' := push_played_video cfg path update_index s in
      (evicted <> path ->
       os_path_exists evicted (fs s') = false
       /\ times_removed evicted (fs s') = S (times_removed evicted (fs s)))
      /\ (evicted = path ->
          os_path_exists evicted (fs s') = true
          /\ times_removed evicted (fs s') = times_removed evicted (fs s)
          /\ METADATA_BY_PATH s' !! evicted = METADATA_BY_PATH s !! evicted))
  /\ (forall (s : state) (old_file : string) (rest : list string),
        VIDEO_CACHE s = old_file :: rest -> length (VIDEO_CACHE s) = 3%nat ->
        os_path_exists old_file (fs s) = true ->
        let s' := downloader.cache_churn s in
        VIDEO_CACHE s' = rest
        /\ os_path_exists old_file (fs s') = false
        /\ times_removed old_file (fs s') = S (times_removed old_file (fs s))
        /\ METADATA_BY_PATH s' !! old_file = None).
Proof.
  split.
  - intros path upd s evicted rest Hs Hlen Hex s'.
    destruct (push_played_video_overflow cfg path upd s evicted rest Hs Hlen) as [ci Hpush].
    subst s'. split.
    + intros Hne. rewrite Hpush.
      destruct (String.eqb_spec evicted path) as [|_]; [done|]. simpl.
      destruct (safe_delete_present evicted (set_PLAYED_VIDEOS (rest ++ [path]) s) Hex)
        as [Hgone Hcount].
      apply cleanup_files_missing. by rewrite (safe_delete_fs evicted).
    + intros ->. split_and!.
      * rewrite Hpush. rewrite String.eqb_refl. simpl.
        etrans; [apply cleanup_files_kept|done].
        unfold _keep_set. simpl. apply elem_of_union_l, elem_of_list_to_set.
        apply elem_of_app. right. by apply list_elem_of_singleton.
      * rewrite Hpush. rewrite String.eqb_refl. simpl.
        etrans; [apply cleanup_files_kept|done].
        unfold _keep_set. simpl. apply elem_of_union_l, elem_of_list_to_set.
        apply elem_of_app. right. by apply list_elem_of_singleton.
      * by destruct (push_played_video_containers cfg path upd s) as (_ & _ & ->).
  - intros s old_file rest Hs Hlen Hex s'. subst s'.
    rewrite (cache_churn_full s old_file rest Hs Hlen). simpl.
    split_and!; [done|apply os_remove_gone| |apply lookup_delete_eq].
    unfold times_removed. rewrite os_remove_logged by done.
    rewrite times_removed_snoc, String.eqb_refl. lia.
Qed.

(** C3 as stated fails on the ready cache: a download that lands on the path
    of the artifact it evicts has deleted that file and replaced its
    metadata entry all the same. *)
Lemma cache_eviction_ignores_new_path :
  let cfg := example_config 1024 0 in
  let r := downloader.download_video cfg short_clip (downloader.dl_ok (10 * MB) 9)
             (video_url "1") (OUTPUT_PATH cfg) full_cache_state in
  r.2 = Some (clip "1", Metadata (Some 20%Q) "caption" ["#tag"])
  /\ VIDEO_CACHE full_cache_state = [clip "1"; clip "2"; clip "3"]
  /\ VIDEO_CACHE r.1 = [clip "2"; clip "3"; clip "1"]
  /\ ~ eviction_as_claimed (clip "1") (clip "1") full_cache_state r.1.
Proof.
  intros cfg r. do 3 (split; [by vm_compute|]).
  unfold eviction_as_claimed. rewrite decide_True by done.
  intros [Hc _]. vm_compute in Hc. discriminate.
Qed.

Lemma eviction_deletes_evicted_file_witness :
  let cfg := example_config 1024 0 in
  (os_path_exists (clip "1") (fs (push_played_video cfg (clip "4") true full_history_state))
   = false
   /\ times_removed (clip "1") (fs (push_played_video cfg (clip "4") true full_history_state))
      = 1%nat)
  /\ (os_path_exists (clip "1") (fs (push_played_video cfg (clip "1") true full_history_state))
      = true
      /\ times_removed (clip "1")
           (fs (push_played_video cfg (clip "1") true full_history_state)) = 0%nat)
  /\ (os_path_exists (clip "1") (fs (downloader.cache_churn full_cache_state)) = false
      /\ times_removed (clip "1") (fs (downloader.cache_churn full_cache_state)) = 1%nat
      /\ METADATA_BY_PATH (downloader.cache_churn full_cache_state) !! clip "1" = None).
Proof.
  intros cfg.
  destruct (eviction_deletes_evicted_file cfg) as [Hh Hc].
  split; [|split].
  - destruct (Hh (clip "4") true full_history_state (clip "1") [clip "2"; clip "3"]
                eq_refl eq_refl eq_refl) as [H _].
    apply H. discriminate.
  - destruct (Hh (clip "1") true full_history_state (clip "1") [clip "2"; clip "3"]
                eq_refl eq_refl eq_refl) as [_ H].
    destruct (H eq_refl) as (H1 & H2 & _). split; [exact H1|exact H2].
  - destruct (Hc full_cache_state (clip "1") [clip "2"; clip "3"] eq_refl eq_refl eq_refl)
      as (_ & H1 & H2 & H3).
    split; [exact H1|]. split; [exact H2|exact H3].
Defined.

(** ** The enforcer and the history *)

(** No file the history refers to is deleted by the enforcer. *)
Lemma enforce_disk_budget_keeps_history (cfg : config) (s : state) (p : string) :
  p ∈ PLAYED_VIDEOS s ->
  os_path_exists p (fs (enforce_disk_budget cfg s)) = os_path_exists p (fs s)
  /\ times_removed p (fs (enforce_disk_budget cfg s)) = times_removed p (fs s).
Proof.
  intros Hp. rewrite enforce_disk_budget_history by (by intros E; rewrite E in Hp;
    apply elem_of_nil in Hp).
  apply cleanup_files_kept. by apply elem_of_union_l, elem_of_list_to_set.
Qed.

(** C1.  As soon as something has been played, the enforcer deletes nothing
    that is tracked: its first turn reads the local [CURRENT_INDEX] before
    any assignment, the exception ends the function, and what is left is the
    sweep of line 113.  However far the folder is over its quota, every file
    of the history and of the ready cache is still there afterwards. *)
Theorem enforcer_gives_up_with_history (cfg : config) (s : state) :
  PLAYED_VIDEOS s <> [] ->
  let s' := enforce_disk_budget cfg s in
  s' = cleanup_files cfg s
  /\ forall p, p ∈ _keep_set s ->
       os_path_exists p (fs s') = os_path_exists p (fs s)
       /\ times_removed p (fs s') = times_removed p (fs s).
Proof.
  intros Hh s'. subst s'. rewrite enforce_disk_budget_history by done.
  split; [done|]. intros p Hp. by apply cleanup_files_kept.
Qed.

(** At the scenario of the specification (quota 100MB, four tracked clips of
    30MB, the cursor on the second) nothing is deleted and the folder stays
    at 120MB. *)
Lemma enforcer_gives_up_with_history_witness :
  let cfg := example_config 100 0 in
  let s' := enforce_disk_budget cfg quota_scenario in
  s' = cleanup_files cfg quota_scenario
  /\ d_removed (fs s') = []
  /\ folder_size_bytes (OUTPUT_PATH cfg) (fs s') = 120 * MB
  /\ constraints_ok cfg (folder_size_bytes (OUTPUT_PATH cfg) (fs s')) s' = false.
Proof.
  intros cfg s'.
  destruct (enforcer_gives_up_with_history cfg quota_scenario) as [H _].
  - discriminate.
  - split; [exact H|]. subst s' cfg.
    split; [vm_compute; reflexivity|]. split; vm_compute; reflexivity.
Defined.

(** The measurement the loop compares with the quota is never renewed.  With
    nothing played yet, a quota of 50MB and three ready clips of 30MB, two
    deletions bring the folder to 30MB, and the enforcer deletes the third
    clip as well. *)
Lemma enforcer_overshoots_with_empty_history :
  let cfg := example_config 50 0 in
  (exists s1 s2,
     reclaim_cache cache_only_scenario = Some s1
     /\ reclaim_cache s1 = Some s2
     /\ folder_size_bytes (OUTPUT_PATH cfg) (fs s2) = 30 * MB
     /\ 30 * MB <= OUTPUT_DISK_QUOTA_MB cfg * 1024 * 1024
     /\ OUTPUT_DISK_RESERVE_MB cfg * 1024 * 1024 <= d_free (fs s2))
  /\ d_removed (fs (enforce_disk_budget cfg cache_only_scenario))
     = [clip "1"; clip "2"; clip "3"]
  /\ VIDEO_CACHE (enforce_disk_budget cfg cache_only_scenario) = [].
Proof.
  intros cfg. split.
  - do 2 eexists. split; [by vm_compute|]. split; [by vm_compute|]. by vm_compute.
  - by vm_compute.
Qed.

(** C2.  The history branch never reclaims anything.  Whatever the state and
    the pressure on the disk, the enforcer leaves the history and the cursor
    as they are and deletes the file of no history entry: not that of the
    artifact under the cursor, and not that of the oldest entry either. *)
Theorem history_branch_never_reclaims (cfg : config) (s : state) :
  let s' := enforce_disk_budget cfg s in
  PLAYED_VIDEOS s' = PLAYED_VIDEOS s
  /\ CURRENT_INDEX s' = CURRENT_INDEX s
  /\ forall p, p ∈ PLAYED_VIDEOS s ->
       os_path_exists p (fs s') = os_path_exists p (fs s)
       /\ times_removed p (fs s') = times_removed p (fs s).
Proof.
  intros s'. subst s'. destruct (enforce_disk_budget_cursor cfg s) as [E1 E2].
  split; [done|]. split; [done|]. apply enforce_disk_budget_keeps_history.
Qed.

(** At the scenario of the specification the oldest entry is not the current
    one and the folder is over its quota, before and after: clip 1 is still
    in the history and on the disk. *)
Lemma oldest_entry_survives_over_quota :
  let cfg := example_config 100 0 in
  let s' := enforce_disk_budget cfg quota_scenario in
  current_path quota_scenario = Some (clip "2")
  /\ constraints_ok cfg (folder_size_bytes (OUTPUT_PATH cfg) (fs quota_scenario))
       quota_scenario = false
  /\ PLAYED_VIDEOS s' = [clip "1"; clip "2"; clip "3"]
  /\ os_path_exists (clip "1") (fs s') = true
  /\ constraints_ok cfg (folder_size_bytes (OUTPUT_PATH cfg) (fs s')) s' = false.
Proof. by vm_compute. Qed.

(** * Further properties of the code *)

(** ** Paths of downloaded files *)

Lemma string_app_nil (y : string) : "" +:+ y = y.
Proof. reflexivity. Qed.

Lemma string_app_cons (c : ascii) (x y : string) :
  String c x +:+ y = String c (x +:+ y).
Proof. reflexivity. Qed.

(** [String.append] is kept folded by [simpl]; this unfolds it one step. *)
Ltac step_app :=
  repeat (progress (rewrite ?string_app_cons, ?string_app_nil; simpl)).

Lemma string_app_assoc (x y z : string) : (x +:+ y) +:+ z = x +:+ (y +:+ z).
Proof. induction x as [|c x IH]; step_app; [done|]. by f_equal. Qed.

Lemma string_length_app (x y : string) :
  String.length (x +:+ y) = (String.length x + String.length y)%nat.
Proof. induction x as [|c x IH]; step_app; [done|]. by f_equal. Qed.

Lemma lower_app (x y : string) : lower (x +:+ y) = lower x +:+ lower y.
Proof. induction x as [|c x IH]; step_app; [done|]. by f_equal. Qed.

Lemma substring_app_skip (x y : string) (n k : nat) :
  String.substring (String.length x + n) k (x +:+ y) = String.substring n k y.
Proof. induction x as [|c x IH]; step_app; done. Qed.

Lemma endswith_app (x y suffix : string) :
  endswith y suffix = true -> endswith (x +:+ y) suffix = true.
Proof.
  unfold endswith. intros [Hk He]%andb_true_iff. apply Nat.leb_le in Hk.
  apply andb_true_iff. split.
  - apply Nat.leb_le. rewrite string_length_app. lia.
  - rewrite string_length_app.
    replace (String.length x + String.length y - String.length suffix)%nat
      with (String.length x + (String.length y - String.length suffix))%nat by lia.
    by rewrite substring_app_skip.
Qed.

Lemma has_slash_app (x y : string) :
  has_slash (x +:+ y) = (has_slash x || has_slash y)%bool.
Proof.
  induction x as [|c x IH]; step_app; [done|]. rewrite IH. by rewrite orb_assoc.
Qed.

Lemma has_slash_last_segment (s : string) : has_slash (last_segment s) = false.
Proof.
  induction s as [|c s IH]; simpl; [done|].
  destruct (has_slash s) eqn:E; [done|].
  destruct (Ascii.eqb c "/") eqn:Ec; [done|]. simpl. by rewrite Ec, E.
Qed.

Lemma rstrip_slash_snoc (s : string) : rstrip_slash (s +:+ "/") = rstrip_slash s.
Proof. induction s as [|c s IH]; step_app; [done|]. by rewrite IH. Qed.

Lemma strip_prefix_app (p s : string) : strip_prefix p (p +:+ s) = Some s.
Proof.
  induction p as [|c p IH]; step_app; [done|]. by rewrite Ascii.eqb_refl.
Qed.

Lemma startswith_slash (name : string) :
  has_slash name = false -> startswith "/" name = false.
Proof.
  destruct name as [|c name]; [done|].
  intros [Hc _]%orb_false_iff. apply Ascii.eqb_neq in Hc.
  apply andb_false_iff. left. apply Ascii.eqb_neq. congruence.
Qed.

(** In a folder path that is not empty and has no trailing slash, joining
    and listing are inverse to each other. *)
Lemma os_path_join_plain (folder name : string) :
  folder <> "" -> endswith folder "/" = false -> has_slash name = false ->
  os_path_join folder name = folder +:+ "/" +:+ name.
Proof.
  intros Hne He Hs. unfold os_path_join.
  rewrite startswith_slash by done. rewrite He.
  destruct (String.eqb_spec folder ""); done.
Qed.

Lemma name_in_join (folder name : string) :
  name <> "" -> has_slash name = false ->
  name_in folder (folder +:+ "/" +:+ name) = Some name.
Proof.
  intros Hne Hs. unfold name_in.
  rewrite <- string_app_assoc, strip_prefix_app, Hs.
  destruct (String.eqb_spec name ""); done.
Qed.

Lemma strip_prefix_inv (p s r : string) : strip_prefix p s = Some r -> s = p +:+ r.
Proof.
  revert s. induction p as [|c p IH]; intros s; simpl.
  - by intros [= ->].
  - destruct s as [|b s]; [done|].
    destruct (Ascii.eqb_spec c b) as [->|]; [|done].
    intros H. rewrite string_app_cons. by rewrite (IH s H).
Qed.

Lemma name_in_inv (folder p name : string) :
  name_in folder p = Some name ->
  p = folder +:+ "/" +:+ name /\ name <> "" /\ has_slash name = false.
Proof.
  unfold name_in. destruct (strip_prefix (folder +:+ "/") p) as [r|] eqn:E; [|done].
  destruct (String.eqb_spec r "") as [|Hne]; [done|]. simpl.
  destruct (has_slash r) eqn:Hs; [done|]. intros [= <-].
  apply strip_prefix_inv in E. by rewrite string_app_assoc in E.
Qed.

(** X1.  Whatever the URL, the file [download_video] writes is a direct
    child of the output folder whose name ends in ".mp4", so a listing of the
    folder shows it under the very path the function returns and the sweep
    recognises it; trailing slashes of the URL do not change the path. *)
Theorem download_path_is_swept_child (video_url output_folder : string) :
  output_folder <> "" -> endswith output_folder "/" = false ->
  let p := downloader.output_path_of video_url output_folder in
  exists name,
    name_in output_folder p = Some name
    /\ endswith (lower name) ".mp4" = true
    /\ os_path_join output_folder name = p
    /\ downloader.output_path_of (video_url +:+ "/") output_folder = p.
Proof.
  intros Hne He p. subst p. unfold downloader.output_path_of.
  set (video_id := last_segment (rstrip_slash video_url)).
  assert (Hs : has_slash (video_id +:+ ".mp4") = false).
  { rewrite has_slash_app. unfold video_id. by rewrite has_slash_last_segment. }
  assert (Hn : video_id +:+ ".mp4" <> "").
  { intros E. apply (f_equal String.length) in E.
    rewrite string_length_app in E. simpl in E. lia. }
  exists (video_id +:+ ".mp4").
  rewrite os_path_join_plain by done. split_and!.
  - by apply name_in_join.
  - rewrite lower_app. by apply endswith_app.
  - done.
  - rewrite rstrip_slash_snoc. fold video_id. by rewrite os_path_join_plain.
Qed.

Lemma download_path_is_swept_child_witness :
  name_in "/srv/bot/downloads"
    (downloader.output_path_of "https://www.tiktok.com/@u/video/7/" "/srv/bot/downloads")
  = Some "7.mp4"
  /\ downloader.output_path_of "https://www.tiktok.com/@u/video/7//" "/srv/bot/downloads"
     = clip "7".
Proof.
  destruct (download_path_is_swept_child "https://www.tiktok.com/@u/video/7/"
              "/srv/bot/downloads") as (name & H1 & _ & _ & H4); [done|done|].
  split; [|exact H4]. rewrite H1. f_equal.
  vm_compute in H1. by injection H1 as <-.
Defined.

(** ** The sweep *)

Lemma endswith_lower_join (folder name : string) :
  endswith (lower name) ".mp4" = true ->
  endswith (lower (os_path_join folder name)) ".mp4" = true.
Proof.
  intros H. unfold os_path_join.
  destruct (startswith "/" name); [done|].
  destruct (String.eqb folder "" || endswith folder "/")%bool;
    rewrite ?lower_app; by repeat apply endswith_app.
Qed.

(** The sweep applies [safe_delete] only to the joined paths of listed
    names that end in ".mp4" and are outside the keep set. *)
Lemma cleanup_files_sweeps_candidates (P : state -> Prop) (cfg : config) (s : state) :
  (forall name st,
      name ∈ os_listdir (OUTPUT_PATH cfg) (fs s) ->
      endswith (lower name) ".mp4" = true ->
      os_path_join (OUTPUT_PATH cfg) name ∉ _keep_set s ->
      P st -> P (safe_delete (os_path_join (OUTPUT_PATH cfg) name) st)) ->
  P s -> P (cleanup_files cfg s).
Proof.
  intros Hstep. unfold cleanup_files.
  destruct (negb (d_isdir (fs s))); [done|].
  assert (Hall : forall name, name ∈ os_listdir (OUTPUT_PATH cfg) (fs s) ->
                              name ∈ os_listdir (OUTPUT_PATH cfg) (fs s)) by done.
  revert Hall. generalize (os_listdir (OUTPUT_PATH cfg) (fs s)) at 1 3. intros names Hall.
  set (keep := _keep_set s) in *. clearbody keep.
  generalize s at 1 2. intros st. revert st.
  induction names as [|name names IH]; intros st Hst; simpl; [done|].
  apply IH; [intros n Hn; apply Hall; by right|].
  destruct (endswith (lower name) ".mp4") eqn:E; simpl; [|done].
  case_bool_decide; [done|]. apply Hstep; try done. apply Hall. by left.
Qed.

Lemma safe_delete_gone (p : string) (s : state) :
  os_path_exists p (fs (safe_delete p s)) = false.
Proof.
  destruct (os_path_exists p (fs s)) eqn:E.
  - by apply safe_delete_present.
  - by rewrite safe_delete_missing.
Qed.

Lemma safe_delete_stays_missing (p q : string) (s : state) :
  os_path_exists p (fs s) = false -> os_path_exists p (fs (safe_delete q s)) = false.
Proof.
  intros E. destruct (decide (p = q)) as [->|Hne]; [apply safe_delete_gone|].
  by destruct (safe_delete_other p q s Hne) as [-> _].
Qed.

Lemma safe_delete_files (q : string) (s : state) (f : file) :
  f ∈ d_files (fs (safe_delete q s)) -> f ∈ d_files (fs s).
Proof.
  unfold safe_delete.
  destruct (negb (String.eqb q "") && os_path_exists q (fs s))%bool; [|done].
  unfold os_remove. destruct (os_path_exists q (fs s)); [|done]. simpl.
  rewrite !list_elem_of_In. intros H. by apply List.filter_In in H as [H _].
Qed.

Lemma os_path_exists_elem (f : file) (d : disk) :
  f ∈ d_files d -> f_path f <> "" -> os_path_exists (f_path f) d = true.
Proof.
  intros Hin Hne. unfold os_path_exists. apply andb_true_iff. split.
  - destruct (String.eqb_spec (f_path f) ""); done.
  - apply existsb_exists. exists f. split; [by apply list_elem_of_In|].
    apply String.eqb_refl.
Qed.

Lemma os_listdir_elem (folder : string) (d : disk) (name : string) :
  name ∈ os_listdir folder d <->
  exists f, f ∈ d_files d /\ name_in folder (f_path f) = Some name.
Proof. unfold os_listdir. apply list_elem_of_omap. Qed.

Lemma string_app_nonempty (x y : string) : y <> "" -> x +:+ y <> "".
Proof.
  intros Hy E. apply (f_equal String.length) in E.
  rewrite string_length_app in E. destruct y; [done|]. simpl in E. lia.
Qed.

(** X2.  The sweep spares every file that the history or the ready cache
    refers to, every file whose path does not end in ".mp4", and every file
    that is not a direct child of the output folder: such a file exists
    afterwards if it did before and is not deleted; the globals stay as they
    are. *)
Theorem cleanup_files_spares (cfg : config) (s : state) (p : string) :
  p ∈ _keep_set s
  \/ endswith (lower p) ".mp4" = false
  \/ (OUTPUT_PATH cfg <> "" /\ endswith (OUTPUT_PATH cfg) "/" = false
      /\ name_in (OUTPUT_PATH cfg) p = None) ->
  os_path_exists p (fs (cleanup_files cfg s)) = os_path_exists p (fs s)
  /\ times_removed p (fs (cleanup_files cfg s)) = times_removed p (fs s)
  /\ cleanup_files cfg s = set_fs (fs (cleanup_files cfg s)) s.
Proof.
  intros Hp. split_and!; [| |apply cleanup_files_fs].
  all: apply (cleanup_files_sweeps_candidates
           (fun st => os_path_exists p (fs st) = os_path_exists p (fs s)
                      /\ times_removed p (fs st) = times_removed p (fs s)));
    try done.
  all: intros name st Hname Hmp4 Hkeep [He Hn].
  all: assert (Hne : p <> os_path_join (OUTPUT_PATH cfg) name).
  all: try (intros ->; destruct Hp as [Hp|[Hp|(Ho & Hs & Hp)]];
            [done
            |by rewrite endswith_lower_join in Hp
            |apply os_listdir_elem in Hname as (f & _ & Hf);
             apply name_in_inv in Hf as (_ & Hn1 & Hn2);
             rewrite os_path_join_plain in Hp by done;
             by rewrite name_in_join in Hp]).
  all: by destruct (safe_delete_other p _ st Hne) as [-> ->].
Qed.

Lemma cleanup_files_spares_witness :
  let cfg := example_config 1024 0 in
  let s := State [] [clip "2"] ∅ [] [clip "1"] 0 0 ∅
             (Disk [File (clip "1") MB 1; File (clip "2") MB 2; File (clip "3") MB 3;
                    File "/srv/bot/downloads/notes.txt" 1 4;
                    File "/srv/bot/other/9.mp4" MB 5] (5000 * MB) true []) in
  map f_path (d_files (fs (cleanup_files cfg s)))
  = [clip "1"; clip "2"; "/srv/bot/downloads/notes.txt"; "/srv/bot/other/9.mp4"]
  /\ os_path_exists (clip "1") (fs (cleanup_files cfg s)) = true
  /\ os_path_exists "/srv/bot/downloads/notes.txt" (fs (cleanup_files cfg s)) = true
  /\ os_path_exists "/srv/bot/other/9.mp4" (fs (cleanup_files cfg s)) = true.
Proof.
  intros cfg s. split; [by vm_compute|]. split_and!.
  - assert (Hk : clip "1" ∈ _keep_set s)
      by (apply (bool_decide_unpack _); vm_compute; exact I).
    by destruct (cleanup_files_spares cfg s (clip "1") (or_introl Hk)) as [-> _].
  - by destruct (cleanup_files_spares cfg s "/srv/bot/downloads/notes.txt"
                   (or_intror (or_introl eq_refl))) as [-> _].
  - assert (H : OUTPUT_PATH cfg <> "" /\ endswith (OUTPUT_PATH cfg) "/" = false
                /\ name_in (OUTPUT_PATH cfg) "/srv/bot/other/9.mp4" = None) by done.
    by destruct (cleanup_files_spares cfg s "/srv/bot/other/9.mp4"
                   (or_intror (or_intror H))) as [-> _].
Defined.

Lemma cleanup_files_fold (cfg : config) (s : state) :
  d_isdir (fs s) = true ->
  cleanup_files cfg s
  = foldl (sweep_step cfg (_keep_set s)) s (os_listdir (OUTPUT_PATH cfg) (fs s)).
Proof. intros H. unfold cleanup_files. by rewrite H. Qed.

Lemma sweep_fold_missing (cfg : config) (keep : gset string) (names : list string)
    (st : state) (p : string) :
  os_path_exists p (fs st) = false ->
  os_path_exists p (fs (foldl (sweep_step cfg keep) st names)) = false.
Proof.
  revert st. induction names as [|name names IH]; intros st H; simpl; [done|].
  apply IH. unfold sweep_step.
  destruct (negb (endswith (lower name) ".mp4")); [done|].
  case_bool_decide; [done|]. by apply safe_delete_stays_missing.
Qed.

Lemma sweep_fold_gone (cfg : config) (keep : gset string) (names : list string)
    (st : state) (name : string) :
  name ∈ names -> endswith (lower name) ".mp4" = true ->
  os_path_join (OUTPUT_PATH cfg) name ∉ keep ->
  os_path_exists (os_path_join (OUTPUT_PATH cfg) name)
    (fs (foldl (sweep_step cfg keep) st names)) = false.
Proof.
  intros Hin Hmp4 Hkeep. revert st.
  induction names as [|n names IH]; intros st; [by apply elem_of_nil in Hin|].
  simpl. apply elem_of_cons in Hin as [<-|Hin]; [|by apply IH].
  apply sweep_fold_missing. unfold sweep_step. rewrite Hmp4. simpl.
  rewrite bool_decide_eq_false_2 by done. apply safe_delete_gone.
Qed.

Lemma sweep_fold_files (cfg : config) (keep : gset string) (names : list string)
    (st : state) (f : file) :
  f ∈ d_files (fs (foldl (sweep_step cfg keep) st names)) -> f ∈ d_files (fs st).
Proof.
  revert st. induction names as [|name names IH]; intros st; simpl; [done|].
  intros H. apply IH in H. unfold sweep_step in H.
  destruct (negb (endswith (lower name) ".mp4")); [done|].
  case_bool_decide; [done|]. by apply safe_delete_files in H.
Qed.

Lemma sweep_fold_tracked (cfg : config) (keep : gset string) (names : list string)
    (st : state) :
  (forall name, name ∈ names -> endswith (lower name) ".mp4" = true ->
                os_path_join (OUTPUT_PATH cfg) name ∈ keep) ->
  foldl (sweep_step cfg keep) st names = st.
Proof.
  induction names as [|name names IH]; intros H; simpl; [done|].
  assert (Hstep : sweep_step cfg keep st name = st).
  { unfold sweep_step. destruct (endswith (lower name) ".mp4") eqn:E; simpl; [|done].
    rewrite bool_decide_eq_true_2; [done|]. apply H; [by left|done]. }
  rewrite Hstep. apply IH. intros n Hn. apply H. by right.
Qed.

Lemma cleanup_files_keep_set (cfg : config) (s : state) :
  _keep_set (cleanup_files cfg s) = _keep_set s.
Proof. by rewrite cleanup_files_fs. Qed.

(** After the sweep every ".mp4" directly inside the output folder is one the
    history or the ready cache refers to. *)
Lemma cleanup_files_complete (cfg : config) (s : state) (f : file) (name : string) :
  d_isdir (fs s) = true ->
  OUTPUT_PATH cfg <> "" -> endswith (OUTPUT_PATH cfg) "/" = false ->
  f ∈ d_files (fs (cleanup_files cfg s)) ->
  name_in (OUTPUT_PATH cfg) (f_path f) = Some name ->
  endswith (lower name) ".mp4" = true ->
  f_path f ∈ _keep_set s.
Proof.
  intros Hdir Ho Hs Hf Hname Hmp4.
  destruct (decide (f_path f ∈ _keep_set s)) as [|Hkeep]; [done|exfalso].
  pose proof (name_in_inv _ _ _ Hname) as (Hp & Hn1 & Hn2).
  assert (Hjoin : os_path_join (OUTPUT_PATH cfg) name = f_path f).
  { rewrite os_path_join_plain by done. done. }
  rewrite cleanup_files_fold in Hf by done.
  assert (Hin : name ∈ os_listdir (OUTPUT_PATH cfg) (fs s)).
  { apply os_listdir_elem. exists f. split; [|done]. by eapply sweep_fold_files. }
  pose proof (sweep_fold_gone cfg (_keep_set s) _ s name Hin Hmp4) as Hgone.
  rewrite Hjoin in Hgone. specialize (Hgone Hkeep).
  rewrite os_path_exists_elem in Hgone; [done|done|].
  rewrite Hp. apply string_app_nonempty, string_app_nonempty. done.
Qed.

(** X3.  In an output folder whose path is not empty and has no trailing
    slash, the sweep leaves no untracked clip behind: every file that is a
    direct child of the folder with a name ending in ".mp4" is, afterwards,
    one the history or the ready cache refers to. *)
Theorem cleanup_files_leaves_only_tracked (cfg : config) (s : state) :
  d_isdir (fs s) = true ->
  OUTPUT_PATH cfg <> "" -> endswith (OUTPUT_PATH cfg) "/" = false ->
  forall f name,
    f ∈ d_files (fs (cleanup_files cfg s)) ->
    name_in (OUTPUT_PATH cfg) (f_path f) = Some name ->
    endswith (lower name) ".mp4" = true ->
    f_path f ∈ PLAYED_VIDEOS (cleanup_files cfg s)
    \/ f_path f ∈ VIDEO_CACHE (cleanup_files cfg s).
Proof.
  intros Hdir Ho Hs f name Hf Hname Hmp4.
  pose proof (cleanup_files_complete cfg s f name Hdir Ho Hs Hf Hname Hmp4) as Hk.
  rewrite cleanup_files_fs. simpl. unfold _keep_set in Hk.
  apply elem_of_union in Hk as [Hk|Hk]; apply elem_of_list_to_set in Hk; [by left|by right].
Qed.

Lemma cleanup_files_leaves_only_tracked_witness :
  let s' := cleanup_files (example_config 1024 0) littered_state in
  map f_path (d_files (fs s'))
  = [clip "1"; clip "2"; "/srv/bot/downloads/notes.txt"; "/srv/bot/other/9.mp4"]
  /\ (clip "2" ∈ PLAYED_VIDEOS s' \/ clip "2" ∈ VIDEO_CACHE s').
Proof.
  intros s'. split; [by vm_compute|].
  apply (cleanup_files_leaves_only_tracked (example_config 1024 0) littered_state
           eq_refl ltac:(done) eq_refl (File (clip "2") MB 2) "2.mp4");
    [|by vm_compute|by vm_compute].
  assert (E : d_files (fs (cleanup_files (example_config 1024 0) littered_state))
              = [File (clip "1") MB 1; File (clip "2") MB 2;
                 File "/srv/bot/downloads/notes.txt" 1 4;
                 File "/srv/bot/other/9.mp4" MB 5]) by (by vm_compute).
  rewrite E. right. left.
Defined.

(** X4.  In such a folder the sweep is idempotent: a second sweep right
    after the first finds nothing to delete. *)
Theorem cleanup_files_idempotent (cfg : config) (s : state) :
  OUTPUT_PATH cfg <> "" -> endswith (OUTPUT_PATH cfg) "/" = false ->
  cleanup_files cfg (cleanup_files cfg s) = cleanup_files cfg s.
Proof.
  intros Ho Hs.
  destruct (d_isdir (fs s)) eqn:Hdir.
  - set (s1 := cleanup_files cfg s).
    assert (Hdir1 : d_isdir (fs s1) = true).
    { subst s1.
      apply (cleanup_files_sweeps (fun st => d_isdir (fs st) = true)); [|done].
      intros q st _ H. unfold safe_delete.
      destruct (negb (String.eqb q "") && os_path_exists q (fs st))%bool; [|done].
      unfold os_remove. by destruct (os_path_exists q (fs st)). }
    rewrite cleanup_files_fold by done. apply sweep_fold_tracked.
    intros name [f [Hf Hname]]%os_listdir_elem Hmp4.
    pose proof (name_in_inv _ _ _ Hname) as (Hp & Hn1 & Hn2).
    rewrite os_path_join_plain by done. rewrite <- Hp.
    subst s1. rewrite cleanup_files_keep_set.
    by eapply cleanup_files_complete.
  - unfold cleanup_files. rewrite !Hdir. simpl. by rewrite Hdir.
Qed.

Lemma cleanup_files_idempotent_witness :
  cleanup_files (example_config 1024 0)
    (cleanup_files (example_config 1024 0) littered_state)
  = cleanup_files (example_config 1024 0) littered_state
  /\ d_removed (fs (cleanup_files (example_config 1024 0) littered_state)) = [clip "3"].
Proof.
  split; [|by vm_compute].
  apply (cleanup_files_idempotent (example_config 1024 0) littered_state); done.
Defined.

(** ** The history *)

Lemma last_lastn {A} (n : nat) (l : list A) : (0 < n)%nat -> last (lastn n l) = last l.
Proof.
  intros Hn. unfold lastn. rewrite !last_lookup, length_drop, lookup_drop.
  destruct l as [|x l]; [done|]. f_equal. simpl. lia.
Qed.

Lemma play_all_window (cfg : config) (paths log : list string) (s : state) :
  PLAYED_VIDEOS s = lastn HISTORY_MAX log ->
  PLAYED_VIDEOS (play_all cfg paths s) = lastn HISTORY_MAX (log ++ paths).
Proof.
  revert log s. induction paths as [|path paths IH]; intros log s Hs; simpl.
  - by rewrite app_nil_r.
  - rewrite (cons_middle path), app_assoc. apply IH. by apply push_played_video_window.
Qed.

Lemma play_all_snoc (cfg : config) (paths : list string) (path : string) (s : state) :
  play_all cfg (paths ++ [path]) s
  = push_played_video cfg path true (play_all cfg paths s).
Proof. unfold play_all. by rewrite foldl_snoc. Qed.

(** X5.  After any number of artifacts played in turn from the start, the
    history holds the last three of them in order, the cursor is the last
    index, and the path under the cursor is the artifact played last. *)
Theorem history_holds_last_three (cfg : config) (d : disk) (paths : list string) :
  let s := play_all cfg paths (initial d) in
  PLAYED_VIDEOS s = lastn 3 paths
  /\ CURRENT_INDEX s = Z.of_nat (length (PLAYED_VIDEOS s)) - 1
  /\ current_path s = last paths.
Proof.
  intros s.
  assert (Hh : PLAYED_VIDEOS s = lastn 3 paths).
  { subst s. by rewrite (play_all_window cfg paths [] (initial d)). }
  assert (Hc : CURRENT_INDEX s = Z.of_nat (length (PLAYED_VIDEOS s)) - 1).
  { subst s. destruct paths as [|p paths _] using rev_ind; [done|].
    rewrite play_all_snoc. by rewrite push_played_video_cursor. }
  split_and!; try done.
  unfold current_path. rewrite Hc, Hh.
  destruct paths as [|p paths _] using rev_ind; [done|].
  assert (Hl : (0 < length (lastn 3 (paths ++ [p])))%nat).
  { rewrite lastn_length, length_app. change (length [p]) with 1%nat. lia. }
  destruct (Z.leb_spec 0 (Z.of_nat (length (lastn 3 (paths ++ [p]))) - 1)); [|lia].
  destruct (Z.ltb_spec (Z.of_nat (length (lastn 3 (paths ++ [p]))) - 1)
              (Z.of_nat (length (lastn 3 (paths ++ [p]))))); [|lia].
  simpl. rewrite <- (last_lastn 3) by lia. rewrite last_lookup. f_equal. lia.
Qed.

Lemma safe_delete_fs_only (p : string) (s1 s2 : state) :
  fs s1 = fs s2 -> fs (safe_delete p s1) = fs (safe_delete p s2).
Proof.
  intros E. unfold safe_delete. rewrite E.
  destruct (negb (String.eqb p "") && os_path_exists p (fs s2))%bool; [|done].
  by destruct (os_remove p (fs s2)).
Qed.

Lemma push_played_video_shape (cfg : config) (path : string) (upd : bool) (s : state) :
  exists Y,
    push_played_video cfg path upd s = cleanup_files cfg Y
    /\ path ∈ PLAYED_VIDEOS Y
    /\ (fs Y = fs s
        \/ exists evicted, String.eqb evicted path = false
                           /\ fs Y = fs (safe_delete evicted s)).
Proof.
  unfold push_played_video. cbv zeta. eexists. split; [reflexivity|].
  destruct s as [q c pre seen hist ci n m d].
  unfold set_PLAYED_VIDEOS. simpl.
  destruct (HISTORY_MAX <? length (hist ++ [path]))%nat eqn:Hov.
  - destruct (hist ++ [path]) as [|evicted rest] eqn:E.
    { by destruct hist. }
    assert (Hin : path ∈ rest).
    { destruct hist as [|a hist]; simpl in E.
      - injection E as <- <-. simpl in Hov. done.
      - injection E as <- <-. apply elem_of_app. right. by left. }
    destruct (String.eqb evicted path) eqn:Eev; simpl.
    + destruct (0 <? ci); destruct upd; simpl; (split; [done|by left]).
    + rewrite (safe_delete_fs evicted). simpl.
      destruct (0 <? ci); destruct upd; simpl;
        (split; [done|right; exists evicted; split; [done|by apply safe_delete_fs_only]]).
  - destruct upd; simpl; (split; [|by left]); apply elem_of_app; right; by left.
Qed.

(** X6.  A push never deletes the file it pushes: if the file is there
    before [push_played_video] it is there afterwards, not deleted in
    between, and its path is the newest entry of the history. *)
Theorem push_played_video_keeps_pushed (cfg : config) (path : string) (upd : bool)
    (s : state) :
  os_path_exists path (fs s) = true ->
  let s' := push_played_video cfg path upd s in
  os_path_exists path (fs s') = true
  /\ times_removed path (fs s') = times_removed path (fs s)
  /\ last (PLAYED_VIDEOS s') = Some path.
Proof.
  intros Hex s'.
  assert (Hlast : last (PLAYED_VIDEOS s') = Some path).
  { subst s'. rewrite push_played_video_history.
    destruct (Nat.ltb_spec HISTORY_MAX (length (PLAYED_VIDEOS s ++ [path]))) as [Hlt|_].
    - destruct (PLAYED_VIDEOS s) as [|a l];
        [simpl in Hlt; unfold HISTORY_MAX in Hlt; lia|].
      simpl. rewrite drop_0. apply last_snoc.
    - apply last_snoc. }
  destruct (push_played_video_shape cfg path upd s) as (Y & HY & Hin & Hfs).
  assert (Hk : path ∈ _keep_set Y) by (by apply elem_of_union_l, elem_of_list_to_set).
  destruct (cleanup_files_kept cfg path Y Hk) as [E1 E2].
  subst s'. split; [|split; [|exact Hlast]]; rewrite HY, ?E1, ?E2.
  all: revert Hex.
  all: destruct Hfs as [->|(evicted & Hne & ->)]; [done|]; intros Hex.
  all: apply String.eqb_neq in Hne.
  all: assert (Hne' : path <> evicted) by congruence.
  all: destruct (safe_delete_other path evicted s Hne') as [Ea Eb].
  all: by rewrite ?Ea, ?Eb.
Qed.

Lemma push_played_video_keeps_pushed_witness :
  let s' := push_played_video (example_config 1024 0) (clip "4") true full_history_state in
  os_path_exists (clip "4") (fs s') = true
  /\ PLAYED_VIDEOS s' = [clip "2"; clip "3"; clip "4"]
  /\ d_removed (fs s') = [clip "1"].
Proof.
  intros s'.
  destruct (push_played_video_keeps_pushed (example_config 1024 0) (clip "4") true
              full_history_state eq_refl) as (H1 & _ & _).
  split; [exact H1|]. by vm_compute.
Defined.

(** ** Pruning and discovery *)

Lemma prune_loop_seen (seen : list string) (pre : gset string) :
  (prune_loop seen pre).1 = lastn SEEN_URLS_MAX seen.
Proof.
  revert pre. induction seen as [|oldest rest IH]; intros pre; [done|].
  unfold prune_loop; fold prune_loop.
  destruct (Nat.ltb_spec SEEN_URLS_MAX (length (oldest :: rest))) as [Hlt|Hge].
  - rewrite IH. unfold lastn. change (length (oldest :: rest)) with (S (length rest)) in *.
    replace (S (length rest) - SEEN_URLS_MAX)%nat
      with (S (length rest - SEEN_URLS_MAX)) by lia.
    done.
  - by rewrite lastn_all.
Qed.

Lemma prune_loop_set (seen : list string) (pre : gset string) (x : string) :
  x ∈ (prune_loop seen pre).2
  <-> x ∈ pre /\ x ∉ take (length seen - SEEN_URLS_MAX) seen.
Proof.
  revert pre. induction seen as [|oldest rest IH]; intros pre.
  - simpl. split; [intros H; split; [done|apply not_elem_of_nil]|by intros [H _]].
  - unfold prune_loop; fold prune_loop.
    destruct (Nat.ltb_spec SEEN_URLS_MAX (length (oldest :: rest))) as [Hlt|Hge].
    + rewrite IH. change (length (oldest :: rest)) with (S (length rest)) in *.
      replace (S (length rest) - SEEN_URLS_MAX)%nat
        with (S (length rest - SEEN_URLS_MAX)) by lia.
      rewrite firstn_cons, elem_of_difference, elem_of_singleton, not_elem_of_cons.
      tauto.
    + replace (length (oldest :: rest) - SEEN_URLS_MAX)%nat with 0%nat by lia.
      simpl. split; [intros H; split; [done|apply not_elem_of_nil]|by intros [H _]].
Qed.

Lemma prune_seen_urls_shape (s : state) :
  prune_seen_urls_if_needed s
  = set_seen (prune_loop (SEEN_URLS s) (PRELOADED_VIDEOS s)).2
             (prune_loop (SEEN_URLS s) (PRELOADED_VIDEOS s)).1 s.
Proof. unfold prune_seen_urls_if_needed. by destruct (prune_loop _ _). Qed.

(** X7.  From any tracker, pruning keeps the last 250 entries of the order
    sequence and drops from the set exactly the entries it drops from the
    sequence; every other global is left alone, and pruning again changes
    nothing. *)
Theorem prune_keeps_last_window (s : state) :
  let s' := prune_seen_urls_if_needed s in
  SEEN_URLS s' = lastn 250 (SEEN_URLS s)
  /\ (length (SEEN_URLS s') <= 250)%nat
  /\ (forall x, x ∈ PRELOADED_VIDEOS s'
                <-> x ∈ PRELOADED_VIDEOS s
                    /\ x ∉ take (length (SEEN_URLS s) - 250) (SEEN_URLS s))
  /\ s' = set_seen (PRELOADED_VIDEOS s') (SEEN_URLS s') s
  /\ prune_seen_urls_if_needed s' = s'.
Proof.
  intros s'. change 250%nat with SEEN_URLS_MAX.
  assert (Hseen : SEEN_URLS s' = lastn SEEN_URLS_MAX (SEEN_URLS s)).
  { subst s'. rewrite prune_seen_urls_shape. simpl. apply prune_loop_seen. }
  assert (Hlen : (length (SEEN_URLS s') <= SEEN_URLS_MAX)%nat).
  { rewrite Hseen, lastn_length. lia. }
  split_and!; try done.
  - intros x. subst s'. rewrite prune_seen_urls_shape. simpl. apply prune_loop_set.
  - subst s'. rewrite prune_seen_urls_shape. by destruct s.
  - by apply prune_seen_urls_noop.
Qed.

Lemma seen_ok_seen_inv (s : state) : seen_ok s <-> seen_inv (SEEN_URLS s) s.
Proof.
  unfold seen_ok, seen_inv. split.
  - intros (Hnd & Hmem & Hlen). by rewrite lastn_all.
  - intros (Hseen & Hnd & Hmem). split_and!; try done.
    rewrite Hseen at 1. rewrite lastn_length. lia.
Qed.

Lemma seen_inv_seen_ok (log : list string) (s : state) : seen_inv log s -> seen_ok s.
Proof.
  intros (Hseen & Hnd & Hmem). split_and!; try done.
  rewrite Hseen, lastn_length. lia.
Qed.

Lemma pick_fresh_some (hrefs : list string) (s : state) (href : string) :
  scraper.pick_fresh hrefs s = Some href ->
  href ∈ hrefs /\ href <> "" /\ href ∉ PRELOADED_VIDEOS s.
Proof.
  induction hrefs as [|h hrefs IH]; simpl; [done|].
  destruct (String.eqb_spec h "") as [->|Hne]; simpl.
  - intros H. destruct (IH H) as (H1 & H2 & H3). split_and!; try done. by right.
  - case_bool_decide as Hin; simpl.
    + intros H. destruct (IH H) as (H1 & H2 & H3). split_and!; try done. by right.
    + intros [= <-]. split_and!; try done. by left.
Qed.

Lemma pick_fresh_none (hrefs : list string) (s : state) (href : string) :
  scraper.pick_fresh hrefs s = None -> href ∈ hrefs ->
  href = "" \/ href ∈ PRELOADED_VIDEOS s.
Proof.
  induction hrefs as [|h hrefs IH]; simpl; [by intros _ ?%elem_of_nil|].
  destruct (String.eqb_spec h "") as [->|Hne]; simpl.
  - intros H [->|Hin]%elem_of_cons; [by left|by apply IH].
  - case_bool_decide as Hh; simpl; [|done].
    intros H [->|Hin]%elem_of_cons; [by right|by apply IH].
Qed.

Lemma note_fresh_seen (href : string) (s : state) :
  seen_ok s -> href ∉ PRELOADED_VIDEOS s ->
  seen_ok (scraper.note_fresh href s)
  /\ last (SEEN_URLS (scraper.note_fresh href s)) = Some href
  /\ href ∈ PRELOADED_VIDEOS (scraper.note_fresh href s)
  /\ PRELOAD_COUNTER (scraper.note_fresh href s) = PRELOAD_COUNTER s + 1.
Proof.
  intros Hok Hnew.
  pose proof (seen_inv_add (SEEN_URLS s) href s (proj1 (seen_ok_seen_inv s) Hok)) as Hinv.
  rewrite bool_decide_eq_false_2 in Hinv by done.
  pose proof (seen_inv_seen_ok _ _ Hinv) as Hok'.
  assert (Hlast : last (SEEN_URLS (add_seen_url href s)) = Some href).
  { destruct Hinv as (-> & _). rewrite last_lastn by apply SEEN_URLS_MAX_pos.
    apply last_snoc. }
  split_and!; [| | |apply note_fresh_counter].
  all: unfold scraper.note_fresh.
  all: rewrite prune_seen_urls_noop by apply Hok'.
  - done.
  - done.
  - simpl. apply Hok'. rewrite last_lookup in Hlast. by eapply list_elem_of_lookup_2.
Qed.

(** X8.  On a consistent tracker, a link [get_fresh_video_link] returns is
    a non-empty link shown at one of the five attempts that was not marked
    seen; afterwards it is marked seen as the newest entry, the preload
    counter has grown by one and the tracker is consistent again.  When it
    gives up, every state is as before and every link shown was empty or
    already seen. *)
Theorem discovery_returns_unseen_link (pages : nat -> list string) (s : state) :
  seen_ok s ->
  let r := scraper.get_fresh_video_link pages s in
  match r.2 with
  | Some href =>
      href <> ""
      /\ (href ∉ PRELOADED_VIDEOS s)
      /\ (exists attempt, (attempt < 5)%nat /\ href ∈ pages attempt)
      /\ href ∈ PRELOADED_VIDEOS r.1
      /\ last (SEEN_URLS r.1) = Some href
      /\ PRELOAD_COUNTER r.1 = PRELOAD_COUNTER s + 1
      /\ seen_ok r.1
  | None =>
      r.1 = s
      /\ forall attempt href, (attempt < 5)%nat -> href ∈ pages attempt ->
                              href = "" \/ href ∈ PRELOADED_VIDEOS s
  end.
Proof.
  intros Hok r. subst r. unfold scraper.get_fresh_video_link.
  assert (Hgen : forall retries first,
    match (scraper.attempts_from pages first retries s).2 with
    | Some href =>
        href <> "" /\ (href ∉ PRELOADED_VIDEOS s)
        /\ (exists attempt, (first <= attempt < first + retries)%nat /\ href ∈ pages attempt)
        /\ href ∈ PRELOADED_VIDEOS (scraper.attempts_from pages first retries s).1
        /\ last (SEEN_URLS (scraper.attempts_from pages first retries s).1) = Some href
        /\ PRELOAD_COUNTER (scraper.attempts_from pages first retries s).1
           = PRELOAD_COUNTER s + 1
        /\ seen_ok (scraper.attempts_from pages first retries s).1
    | None =>
        (scraper.attempts_from pages first retries s).1 = s
        /\ forall attempt href, (first <= attempt < first + retries)%nat ->
                                href ∈ pages attempt ->
                                href = "" \/ href ∈ PRELOADED_VIDEOS s
    end).
  { induction retries as [|retries IH]; intros first; simpl.
    - split; [done|]. intros attempt href H. lia.
    - destruct (scraper.pick_fresh (pages first) s) as [href|] eqn:E; simpl.
      + destruct (pick_fresh_some _ _ _ E) as (H1 & H2 & H3).
        destruct (note_fresh_seen href s Hok H3) as (H4 & H5 & H6 & H7).
        refine (conj H2 (conj H3 (conj _ (conj H6 (conj H5 (conj H7 H4)))))).
        exists first. split; [lia|done].
      + specialize (IH (S first)).
        destruct (scraper.attempts_from pages (S first) retries s).2 as [href|].
        * destruct IH as (H1 & H2 & (a & Ha & Hin) & H4).
          refine (conj H1 (conj H2 (conj _ H4))). exists a. split; [lia|done].
        * destruct IH as [H1 H2]. split; [done|].
          intros attempt href Ha Hin.
          destruct (decide (attempt = first)) as [->|Hne].
          -- by eapply pick_fresh_none.
          -- apply (H2 attempt); [lia|done]. }
  specialize (Hgen 5%nat 0%nat).
  destruct (scraper.attempts_from pages 0 5 s).2 as [href|].
  - destruct Hgen as (H1 & H2 & (a & Ha & Hin) & H4).
    refine (conj H1 (conj H2 (conj _ H4))). exists a. split; [lia|done].
  - destruct Hgen as [H1 H2]. split; [done|].
    intros attempt href Ha. apply H2. lia.
Qed.

Lemma discovery_returns_unseen_link_witness :
  let r := scraper.get_fresh_video_link
             (fun n => if (n <? 2)%nat then [video_url "7"; ""] else [video_url "7"; video_url "900"])
             seasoned_tracker in
  r.2 = Some (video_url "900")
  /\ PRELOAD_COUNTER r.1 = 2
  /\ last (SEEN_URLS r.1) = Some (video_url "900").
Proof.
  intros r.
  assert (Hok : seen_ok seasoned_tracker).
  { split_and!.
    - apply NoDup_singleton.
    - intros x. simpl. by rewrite elem_of_singleton, list_elem_of_singleton.
    - simpl. unfold SEEN_URLS_MAX. lia. }
  pose proof (discovery_returns_unseen_link
                (fun n => if (n <? 2)%nat then [video_url "7"; ""]
                          else [video_url "7"; video_url "900"])
                seasoned_tracker Hok) as H.
  assert (E : r.2 = Some (video_url "900")) by (by vm_compute).
  cbv zeta in H. fold r in H. rewrite E in H.
  destruct H as (_ & _ & _ & _ & H5 & H6 & _).
  split; [exact E|]. split; [|exact H5]. rewrite H6. by vm_compute.
Defined.

(** ** More on the enforcer *)

Lemma only_removes_refl (s : state) : only_removes s s.
Proof. unfold only_removes. split_and!; done. Qed.

Lemma only_removes_safe_delete (s0 st : state) (q : string) :
  only_removes s0 st -> only_removes s0 (safe_delete q st).
Proof.
  intros (H1 & H2 & H3 & H4 & H5 & H6 & H7 & H8 & H9).
  unfold only_removes. rewrite (safe_delete_fs q st) at 1 2 3 4 5 6 7 8. simpl.
  split_and!; try done. intros f Hf. by apply H9, (safe_delete_files q).
Qed.

Lemma only_removes_cleanup_files (cfg : config) (s0 st : state) :
  only_removes s0 st -> only_removes s0 (cleanup_files cfg st).
Proof.
  intros H. apply (cleanup_files_sweeps (only_removes s0)); [|done].
  intros q st' _. apply only_removes_safe_delete.
Qed.

Lemma only_removes_reclaim_cache (s0 st st' : state) :
  only_removes s0 st -> reclaim_cache st = Some st' -> only_removes s0 st'.
Proof.
  intros (H1 & H2 & H3 & H4 & H5 & H6 & H7 & H8 & H9). unfold reclaim_cache.
  destruct (VIDEO_CACHE st) as [|old_file rest] eqn:Hs; [done|]. intros [= <-].
  assert (Hr : only_removes s0 (set_VIDEO_CACHE rest st)).
  { unfold only_removes. simpl. split_and!; try done.
    etrans; [|exact H8]. by apply suffix_cons_r. }
  case_bool_decide; [done|]. by apply only_removes_safe_delete.
Qed.

Lemma only_removes_enforce_disk_budget (cfg : config) (s : state) :
  only_removes s (enforce_disk_budget cfg s).
Proof.
  unfold enforce_disk_budget.
  destruct (negb (d_isdir (fs s))); [apply only_removes_refl|].
  apply janitor_loop_preserves.
  - apply only_removes_reclaim_cache.
  - intros st st' H. unfold reclaim_untracked.
    destruct (sort_by_key _ _); [done|]. intros [= <-].
    by apply only_removes_safe_delete.
  - apply only_removes_cleanup_files, only_removes_refl.
Qed.

(** X9.  The enforcer only removes, and never from the history: the
    discovery queue, the seen tracker, the preload counter, the metadata map,
    the history and the cursor are as before, the ready cache is a suffix of
    what it was, and no file is on the disk that was not there. *)
Theorem enforce_disk_budget_only_removes (cfg : config) (s : state) :
  let s' := enforce_disk_budget cfg s in
  VIDEO_QUEUE s' = VIDEO_QUEUE s
  /\ PRELOADED_VIDEOS s' = PRELOADED_VIDEOS s
  /\ SEEN_URLS s' = SEEN_URLS s
  /\ PRELOAD_COUNTER s' = PRELOAD_COUNTER s
  /\ METADATA_BY_PATH s' = METADATA_BY_PATH s
  /\ PLAYED_VIDEOS s' = PLAYED_VIDEOS s
  /\ CURRENT_INDEX s' = CURRENT_INDEX s
  /\ VIDEO_CACHE s' `suffix_of` VIDEO_CACHE s
  /\ (forall f, f ∈ d_files (fs s') -> f ∈ d_files (fs s)).
Proof. intros s'. apply only_removes_enforce_disk_budget. Qed.

Lemma insert_by_key_elem (key : string -> Z) (p q : string) (l : list string) :
  q ∈ insert_by_key key p l <-> q = p \/ q ∈ l.
Proof.
  induction l as [|x l IH]; simpl.
  - rewrite list_elem_of_singleton, elem_of_nil. tauto.
  - destruct (key p <=? key x).
    + rewrite !elem_of_cons. tauto.
    + rewrite !elem_of_cons, IH. tauto.
Qed.

(** The head of the sorted list is an element with the least key. *)
Lemma sort_by_key_head (key : string -> Z) (l : list string) :
  match sort_by_key key l with
  | [] => l = []
  | p :: _ => p ∈ l /\ forall q, q ∈ l -> key p <= key q
  end.
Proof.
  induction l as [|x l IH]; [done|].
  unfold sort_by_key in *. simpl. destruct (foldr (insert_by_key key) [] l) as [|m r].
  - subst l. simpl. split; [by left|]. intros q ->%list_elem_of_singleton. lia.
  - destruct IH as [Hm Hmin]. simpl.
    destruct (Z.leb_spec (key x) (key m)).
    + split; [by left|]. intros q [->|Hq]%elem_of_cons; [lia|].
      specialize (Hmin q Hq). lia.
    + split; [by right|]. intros q [->|Hq]%elem_of_cons; [lia|by apply Hmin].
Qed.

Lemma untracked_candidates_elem (cfg : config) (s : state) (p : string) :
  p ∈ untracked_candidates cfg s ->
  endswith (lower p) ".mp4" = true /\ p ∉ _keep_set s.
Proof.
  unfold untracked_candidates. intros (name & Hname & Hp)%list_elem_of_omap.
  destruct (endswith (lower name) ".mp4") eqn:E; [|done].
  case_bool_decide; [done|]. injection Hp as <-.
  split; [by apply endswith_lower_join|done].
Qed.

(** X10.  When nothing tracked is left to reclaim, the scan deletes the
    untracked clip with the oldest modification time: the path it deletes
    ends in ".mp4", is in neither the history nor the ready cache, and no
    other candidate is older.  It gives up exactly when there is no
    candidate. *)
Theorem reclaim_untracked_takes_oldest (cfg : config) (s : state) :
  match reclaim_untracked cfg s with
  | Some s' =>
      exists p,
        s' = safe_delete p s
        /\ p ∈ untracked_candidates cfg s
        /\ endswith (lower p) ".mp4" = true
        /\ (p ∉ _keep_set s)
        /\ forall q, q ∈ untracked_candidates cfg s ->
                     mtime_at p (fs s) <= mtime_at q (fs s)
  | None => untracked_candidates cfg s = []
  end.
Proof.
  unfold reclaim_untracked.
  pose proof (sort_by_key_head (fun p => mtime_at p (fs s)) (untracked_candidates cfg s))
    as H.
  destruct (sort_by_key _ _) as [|p l]; [done|].
  destruct H as [Hin Hmin]. exists p.
  destruct (untracked_candidates_elem cfg s p Hin) as [H1 H2]. split_and!; done.
Qed.

Lemma current_path_elem (st : state) (c : string) :
  current_path st = Some c -> c ∈ PLAYED_VIDEOS st.
Proof.
  unfold current_path. destruct (_ && _)%bool; [|done].
  intros H. by eapply list_elem_of_lookup_2.
Qed.

(** X11.  The enforcer never deletes the artifact under the cursor:
    whatever the pressure on the disk, its file is still there afterwards,
    was not deleted in between, and is still the one the cursor points
    at. *)
Theorem enforce_disk_budget_spares_current (cfg : config) (s : state) (c : string) :
  current_path s = Some c ->
  os_path_exists c (fs s) = true ->
  let s' := enforce_disk_budget cfg s in
  current_path s' = Some c
  /\ os_path_exists c (fs s') = true
  /\ times_removed c (fs s') = times_removed c (fs s).
Proof.
  intros Hcur Hex s'. subst s'.
  destruct (enforce_disk_budget_cursor cfg s) as [E1 E2].
  destruct (enforce_disk_budget_keeps_history cfg s c (current_path_elem s c Hcur))
    as [E3 E4].
  split_and!; [|congruence|done].
  unfold current_path in *. by rewrite E1, E2.
Qed.

Lemma enforce_disk_budget_spares_current_witness :
  let s' := enforce_disk_budget (example_config 1024 2048) pressed_state in
  current_path s' = Some (clip "1")
  /\ os_path_exists (clip "1") (fs s') = true
  /\ times_removed (clip "1") (fs s') = 0%nat.
Proof.
  intros s'.
  destruct (enforce_disk_budget_spares_current (example_config 1024 2048) pressed_state
              (clip "1")) as (H1 & H2 & H3).
  - reflexivity.
  - reflexivity.
  - split; [exact H1|]. split; [exact H2|].
    transitivity (times_removed (clip "1") (fs pressed_state)); [exact H3|reflexivity].
Defined.

(** ** The download *)

(** X12.  [download_video] answers with a path exactly when the duration
    check lets the clip pass and the download subprocess succeeds.  The
    path is then the one derived from the URL, the metadata returned is what
    the extraction gave (or the placeholder without a duration when it gave
    nothing), a known duration lies between 5 and 50 seconds, and the final
    lookup of the metadata map under the path finds that very record:
    neither the sweep nor the enforcer that run in between touch the map. *)
Theorem download_video_returns_stored_metadata (cfg : config)
    (meta : option downloader.extracted) (run : downloader.yt_dlp_result)
    (url folder : string) (s : state) :
  match downloader.download_video cfg meta run url folder s with
  | (s', Some (path, m)) =>
      downloader.out_of_bounds meta = false
      /\ (exists size mtime, run = downloader.dl_ok size mtime)
      /\ path = downloader.output_path_of url folder
      /\ m = match meta with
             | Some e => downloader.as_metadata e
             | None => Metadata None "" []
             end
      /\ (forall d, duration m = Some d -> (5 <= d)%Q /\ (d <= 50)%Q)
      /\ METADATA_BY_PATH s' !! path = Some m
  | (s', None) =>
      downloader.out_of_bounds meta = true \/ run = downloader.dl_failed
  end.
Proof.
  unfold downloader.download_video.
  destruct (downloader.out_of_bounds meta) eqn:Hb; [by left|].
  destruct run as [size mtime|]; [|by right].
  split_and!; try done.
  - by exists size, mtime.
  - intros d. destruct meta as [e|]; [|done]. simpl. intros [= <-].
    unfold downloader.out_of_bounds in Hb. apply negb_false_iff, andb_true_iff in Hb.
    destruct Hb as [H1 H2]. by apply Qle_bool_iff in H1, H2.
  - match goal with |- METADATA_BY_PATH (enforce_disk_budget ?c ?st) !! _ = _ =>
      destruct (only_removes_enforce_disk_budget c st) as (_ & _ & _ & _ & -> & _)
    end.
    rewrite cleanup_files_fs. simpl. apply lookup_insert_eq.
Qed.

(** ** The enforcer runs dry *)

Lemma swept_cleanup_files (cfg : config) (s : state) :
  d_isdir (fs s) = true ->
  OUTPUT_PATH cfg <> "" -> endswith (OUTPUT_PATH cfg) "/" = false ->
  swept cfg (cleanup_files cfg s).
Proof.
  intros Hdir Ho Hs f name Hf Hname Hmp4. rewrite cleanup_files_keep_set.
  by eapply cleanup_files_complete.
Qed.

Lemma swept_no_candidates (cfg : config) (st : state) :
  OUTPUT_PATH cfg <> "" -> endswith (OUTPUT_PATH cfg) "/" = false ->
  swept cfg st -> untracked_candidates cfg st = [].
Proof.
  intros Ho Hs Hsw.
  destruct (untracked_candidates cfg st) as [|p l] eqn:E; [done|exfalso].
  assert (Hin : p ∈ untracked_candidates cfg st) by (rewrite E; left).
  unfold untracked_candidates in Hin.
  apply list_elem_of_omap in Hin as (name & Hname & Hp).
  destruct (endswith (lower name) ".mp4") eqn:Hmp4; [|done].
  case_bool_decide as Hk; [done|]. apply Hk.
  apply os_listdir_elem in Hname as (f & Hf & Hn).
  pose proof (name_in_inv _ _ _ Hn) as (Hpath & Hn1 & Hn2).
  rewrite os_path_join_plain by done. rewrite <- Hpath. by eapply Hsw.
Qed.

Lemma keep_set_elem (st : state) (p : string) :
  p ∈ _keep_set st <-> p ∈ PLAYED_VIDEOS st \/ p ∈ VIDEO_CACHE st.
Proof. unfold _keep_set. by rewrite elem_of_union, !elem_of_list_to_set. Qed.

(** Dropping [q] from the tracked paths and deleting its file keeps the
    folder swept. *)
Lemma swept_safe_delete (cfg : config) (st st0 : state) (q : string) :
  swept cfg st -> fs st0 = fs st ->
  (forall p, p ∈ _keep_set st -> p <> q -> p ∈ _keep_set st0) ->
  swept cfg (safe_delete q st0).
Proof.
  intros Hsw Hfs Hkeep f name Hf Hname Hmp4.
  assert (Hk : _keep_set (safe_delete q st0) = _keep_set st0)
    by (by rewrite safe_delete_fs).
  rewrite Hk. apply Hkeep.
  - eapply Hsw; [|done|done]. rewrite <- Hfs. by eapply safe_delete_files.
  - intros Hq.
    pose proof (name_in_inv _ _ _ Hname) as (Hpath & Hn1 & _).
    assert (Hex : os_path_exists (f_path f) (fs (safe_delete q st0)) = true).
    { apply os_path_exists_elem; [done|]. rewrite Hpath.
      by apply string_app_nonempty, string_app_nonempty. }
    rewrite Hq, safe_delete_gone in Hex. done.
Qed.

Lemma swept_reclaim_cache (cfg : config) (st st' : state) :
  swept cfg st -> reclaim_cache st = Some st' ->
  swept cfg st'
  /\ S (length (VIDEO_CACHE st')) = length (VIDEO_CACHE st)
  /\ PLAYED_VIDEOS st' = PLAYED_VIDEOS st.
Proof.
  intros Hsw. unfold reclaim_cache.
  destruct (VIDEO_CACHE st) as [|old_file rest] eqn:Hs; [done|]. intros [= <-].
  simpl. case_bool_decide as Hp.
  - split; [|done]. intros f name Hf Hname Hmp4.
    specialize (Hsw f name Hf Hname Hmp4).
    apply keep_set_elem in Hsw. apply keep_set_elem.
    rewrite Hs in Hsw. simpl in *. apply elem_of_list_to_set in Hp.
    rewrite elem_of_cons in Hsw. destruct Hsw as [?|[->|?]]; auto.
  - split; [|by rewrite safe_delete_fs].
    apply (swept_safe_delete cfg st); [done|done|].
    intros p Hk Hne. apply keep_set_elem in Hk. apply keep_set_elem.
    rewrite Hs in Hk. simpl. rewrite !elem_of_cons in *. tauto.
Qed.

Lemma janitor_loop_drains (cfg : config) (folder_bytes : Z) (fuel : nat) (st : state) :
  OUTPUT_PATH cfg <> "" -> endswith (OUTPUT_PATH cfg) "/" = false ->
  swept cfg st -> PLAYED_VIDEOS st = [] ->
  (length (VIDEO_CACHE st) <= fuel)%nat ->
  let st' := janitor_loop cfg folder_bytes fuel None st in
  constraints_ok cfg folder_bytes st' = true \/ drained cfg st'.
Proof.
  intros Ho Hs. revert st. induction fuel as [|fuel IH]; intros st Hsw Hh Hlen; simpl.
  - destruct (constraints_ok cfg folder_bytes st) eqn:Hc; [by left|right].
    destruct (VIDEO_CACHE st) eqn:E2; [|simpl in Hlen; lia].
    split; [done|by apply swept_no_candidates].
  - destruct (constraints_ok cfg folder_bytes st) eqn:Hc; [by left|].
    rewrite reclaim_history_unbound, bool_decide_eq_true_2 by done.
    destruct (reclaim_cache st) as [s1|] eqn:E2.
    { destruct (swept_reclaim_cache cfg st s1 Hsw E2) as (H1 & H2 & H3).
      apply IH; [done|congruence|lia]. }
    pose proof (swept_no_candidates cfg st Ho Hs Hsw) as Hnone.
    unfold reclaim_untracked. rewrite Hnone. simpl. right.
    split; [|done].
    unfold reclaim_cache in E2. by destruct (VIDEO_CACHE st).
Qed.

(** X13.  Before anything has been played the enforcer is exhaustive.  In an
    output folder whose path is not empty and has no trailing slash, with an
    empty history and at most a hundred ready clips, it returns either with
    its stopping test satisfied (the folder size it measured after the sweep
    within the quota, the free space within the reserve) or with nothing
    left to reclaim: the ready cache empty and no untracked clip in the
    folder.  The safety counter of a hundred turns does not cut the work
    short. *)
Theorem enforce_disk_budget_exhaustive (cfg : config) (s : state) :
  d_isdir (fs s) = true ->
  OUTPUT_PATH cfg <> "" -> endswith (OUTPUT_PATH cfg) "/" = false ->
  PLAYED_VIDEOS s = [] ->
  (length (VIDEO_CACHE s) <= 100)%nat ->
  let s' := enforce_disk_budget cfg s in
  let folder_bytes := folder_size_bytes (OUTPUT_PATH cfg) (fs (cleanup_files cfg s)) in
  constraints_ok cfg folder_bytes s' = true \/ drained cfg s'.
Proof.
  intros Hdir Ho Hs Hh Hlen s' fb. subst s' fb. unfold enforce_disk_budget.
  rewrite Hdir. change (negb true) with false. cbv beta iota zeta.
  apply janitor_loop_drains; [done|done| | |].
  - by apply swept_cleanup_files.
  - by rewrite cleanup_files_fs.
  - by rewrite cleanup_files_fs.
Qed.

Lemma enforce_disk_budget_exhaustive_witness :
  drained (example_config 50 0)
    (enforce_disk_budget (example_config 50 0) cache_only_scenario).
Proof.
  destruct (enforce_disk_budget_exhaustive (example_config 50 0) cache_only_scenario)
    as [H|H].
  - reflexivity.
  - done.
  - reflexivity.
  - reflexivity.
  - simpl. lia.
  - vm_compute in H. discriminate H.
  - exact H.
Defined.

(** ** Filling the queue *)

Lemma get_fresh_video_link_inv (pages : nat -> list string) (s : state) :
  match scraper.get_fresh_video_link pages s with
  | (s1, Some href) =>
      s1 = scraper.note_fresh href s /\ href <> "" /\ href ∉ PRELOADED_VIDEOS s
  | (s1, None) => s1 = s
  end.
Proof.
  unfold scraper.get_fresh_video_link. generalize 0%nat 5%nat. intros a r.
  revert a. induction r as [|r IH]; intros a; simpl; [done|].
  destruct (scraper.pick_fresh (pages a) s) as [href|] eqn:E; [|apply IH].
  by destruct (pick_fresh_some _ _ _ E) as (_ & H2 & H3).
Qed.

Lemma note_fresh_frame (href : string) (s : state) :
  VIDEO_QUEUE (scraper.note_fresh href s) = VIDEO_QUEUE s
  /\ same_but_discovery s (scraper.note_fresh href s).
Proof.
  unfold scraper.note_fresh, prune_seen_urls_if_needed.
  destruct (prune_loop _ _) as [seen pre]. unfold same_but_discovery. simpl.
  unfold add_seen_url. case_bool_decide; [done|].
  match goal with |- context [let '(_, _) := ?x in _] => destruct x end.
  done.
Qed.

Lemma note_fresh_window (href : string) (s : state) :
  seen_ok s -> href ∉ PRELOADED_VIDEOS s ->
  seen_ok (scraper.note_fresh href s)
  /\ SEEN_URLS (scraper.note_fresh href s) = lastn SEEN_URLS_MAX (SEEN_URLS s ++ [href]).
Proof.
  intros Hok Hnew.
  pose proof (seen_inv_add (SEEN_URLS s) href s (proj1 (seen_ok_seen_inv s) Hok)) as Hinv.
  rewrite bool_decide_eq_false_2 in Hinv by done.
  pose proof (seen_inv_seen_ok _ _ Hinv) as Hok'.
  unfold scraper.note_fresh. rewrite prune_seen_urls_noop by apply Hok'.
  split; [done|]. simpl. apply Hinv.
Qed.

Lemma suffix_lastn_snoc {A} (m : nat) (new l : list A) (x : A) :
  new `suffix_of` l -> (length new < m)%nat ->
  (new ++ [x]) `suffix_of` lastn m (l ++ [x]).
Proof.
  intros [pre ->] Hlen. unfold lastn. rewrite <- app_assoc.
  rewrite drop_app_le by (rewrite !length_app; simpl; lia).
  by eexists.
Qed.

Lemma refilled_step (s0 s : state) (new : list string) (href : string) :
  refilled s0 s new -> (length (VIDEO_QUEUE s) < VIDEO_QUEUE_maxlen)%nat ->
  href <> "" -> href ∉ PRELOADED_VIDEOS s ->
  refilled s0
    (set_VIDEO_QUEUE
       (deque_append VIDEO_QUEUE_maxlen href (VIDEO_QUEUE (scraper.note_fresh href s)))
       (scraper.note_fresh href s))
    (new ++ [href]).
Proof.
  intros (Hok & Hq & Hsuf & Hne & Hcnt & Hc & Hh & Hi & Hm & Hd) Hlen Hhref Hnew.
  destruct (note_fresh_frame href s) as (Fq & Fc & Fh & Fi & Fm & Fd).
  destruct (note_fresh_window href s Hok Hnew) as [Hok' Hwin].
  rewrite Fq, deque_append_room by done.
  unfold refilled.
  refine (conj Hok' (conj _ (conj _ (conj _ (conj _ _)))));
    unfold same_but_discovery, set_VIDEO_QUEUE;
    cbn [VIDEO_QUEUE VIDEO_CACHE SEEN_URLS PLAYED_VIDEOS CURRENT_INDEX
         PRELOAD_COUNTER METADATA_BY_PATH fs].
  - by rewrite Hq, app_assoc.
  - rewrite Hwin. apply suffix_lastn_snoc; [done|].
    assert (length new <= length (VIDEO_QUEUE s))%nat
      by (rewrite Hq, length_app; lia).
    unfold VIDEO_QUEUE_maxlen, PRELOAD_TARGET, SEEN_URLS_MAX in *. lia.
  - apply Forall_app. split; [done|]. by apply Forall_singleton.
  - rewrite note_fresh_counter, Hcnt, length_app. simpl. lia.
  - split_and!; congruence.
Qed.

Lemma refill_loop_refilled (fuel n : nat) (feeds : nat -> nat -> list string) (k : nat)
    (s0 s : state) (new : list string) :
  refilled s0 s new -> (n <= VIDEO_QUEUE_maxlen)%nat ->
  (n - length (VIDEO_QUEUE s) <= fuel)%nat ->
  let r := main.refill_loop fuel n feeds k s in
  exists more,
    refilled s0 r.1.1 (new ++ more)
    /\ (r.2 = main.refill_done
        /\ r.1.2 = (k + length more)%nat
        /\ length (VIDEO_QUEUE r.1.1) = Nat.max n (length (VIDEO_QUEUE s))
        \/ r.2 = main.refill_raised
           /\ r.1.2 = S (k + length more)
           /\ (length (VIDEO_QUEUE r.1.1) < n)%nat).
Proof.
  intros Hinv Hn. revert k s new Hinv.
  induction fuel as [|fuel IH]; intros k s new Hinv Hfuel; simpl.
  - destruct (Nat.ltb_spec (length (VIDEO_QUEUE s)) n); [lia|].
    exists []. rewrite app_nil_r. split; [done|]. left. simpl. split_and!; [done|lia|lia].
  - destruct (Nat.ltb_spec (length (VIDEO_QUEUE s)) n) as [Hlt|Hge].
    + pose proof (get_fresh_video_link_inv (feeds k) s) as Hg.
      destruct (scraper.get_fresh_video_link (feeds k) s) as [s1 [href|]].
      * destruct Hg as (-> & Hhref & Hnew).
        assert (Hroom : (length (VIDEO_QUEUE s) < VIDEO_QUEUE_maxlen)%nat) by lia.
        pose proof (refilled_step s0 s new href Hinv Hroom Hhref Hnew) as Hinv'.
        destruct (note_fresh_frame href s) as (Fq & _).
        specialize (IH (S k) _ _ Hinv').
        rewrite Fq, deque_append_room in IH by done. simpl in IH.
        rewrite length_app in IH. simpl in IH.
        destruct IH as (more & Hr & Hend); [lia|].
        rewrite Fq, deque_append_room by done.
        exists (href :: more). rewrite <- app_assoc in Hr. split; [done|].
        simpl. destruct Hend as [(E1 & E2 & E3)|(E1 & E2 & E3)]; [left|right].
        -- split_and!; [done|lia|lia].
        -- split_and!; [done|lia|done].
      * subst s1. exists []. rewrite app_nil_r. split; [done|]. right. simpl.
        split_and!; [done|lia|done].
    + exists []. rewrite app_nil_r. split; [done|]. left. simpl. split_and!; [done|lia|lia].
Qed.

Lemma refilled_refl (s : state) : seen_ok s -> refilled s s [].
Proof.
  intros Hok. unfold refilled, same_but_discovery. rewrite app_nil_r. simpl.
  split_and!; try done; [apply suffix_nil|lia].
Qed.

(** X14.  The queue-filling loop.  On a consistent tracker, with a target
    within the capacity of the queue, the loop ends after at most as many
    discoveries as links are missing: either the queue has reached the
    target or a discovery has raised.  Nothing queued before is dropped; the
    links appended are non-empty, pairwise distinct and all marked seen
    afterwards, each was counted once, and neither the ready cache, the
    history, the cursor, the metadata nor the disk is touched. *)
Theorem refill_loop_reaches_target (fuel n : nat) (feeds : nat -> nat -> list string)
    (k : nat) (s : state) :
  seen_ok s -> (n <= VIDEO_QUEUE_maxlen)%nat ->
  (n - length (VIDEO_QUEUE s) <= fuel)%nat ->
  let r := main.refill_loop fuel n feeds k s in
  let s' := r.1.1 in
  exists new,
    VIDEO_QUEUE s' = VIDEO_QUEUE s ++ new
    /\ NoDup new
    /\ (forall u, u ∈ new -> u <> "" /\ u ∈ PRELOADED_VIDEOS s')
    /\ PRELOAD_COUNTER s' = PRELOAD_COUNTER s + Z.of_nat (length new)
    /\ seen_ok s'
    /\ same_but_discovery s s'
    /\ (r.2 = main.refill_done
        /\ r.1.2 = (k + length new)%nat
        /\ length (VIDEO_QUEUE s') = Nat.max n (length (VIDEO_QUEUE s))
        \/ r.2 = main.refill_raised
           /\ r.1.2 = S (k + length new)
           /\ (length (VIDEO_QUEUE s') < n)%nat).
Proof.
  intros Hok Hn Hfuel r s'.
  destruct (refill_loop_refilled fuel n feeds k s s [] (refilled_refl s Hok) Hn Hfuel)
    as (new & Hr & Hend).
  simpl in Hr. fold r in Hr, Hend. fold s' in Hr, Hend.
  destruct Hr as (Hok' & Hq & Hsuf & Hne & Hcnt & Hframe).
  exists new. split_and!; try done.
  - destruct Hok' as (Hnd & _). destruct Hsuf as [pre E]. rewrite E in Hnd.
    by apply NoDup_app in Hnd as (_ & _ & Hnd).
  - intros u Hu. split; [by eapply (proj1 (Forall_forall _ _) Hne)|].
    destruct Hok' as (_ & Hmem & _). apply Hmem.
    destruct Hsuf as [pre ->]. apply elem_of_app. by right.
Qed.

Lemma refill_loop_reaches_target_witness :
  let r := main.refill_loop 3 3 fresh_feed 0 (initial roomy_disk) in
  VIDEO_QUEUE r.1.1 = [video_url "0"; video_url "1"; video_url "2"]
  /\ r.2 = main.refill_done
  /\ PRELOAD_COUNTER r.1.1 = 3.
Proof.
  intros r.
  assert (Hok : seen_ok (initial roomy_disk)).
  { split_and!; [apply NoDup_nil_2| |simpl; lia].
    intros x. simpl. split; [by intros ?%elem_of_empty|by intros ?%elem_of_nil]. }
  destruct (refill_loop_reaches_target 3 3 fresh_feed 0 (initial roomy_disk) Hok)
    as (new & Hq & _ & _ & Hcnt & _).
  - unfold VIDEO_QUEUE_maxlen, PRELOAD_TARGET. lia.
  - simpl. lia.
  - fold r in Hq, Hcnt.
    assert (E : VIDEO_QUEUE r.1.1 = [video_url "0"; video_url "1"; video_url "2"])
      by (by vm_compute).
    rewrite E in Hq. simpl in Hq. subst new.
    split; [exact E|]. split; [by vm_compute|]. rewrite Hcnt. reflexivity.
Defined.

(** ** Start-up *)

Lemma refill_loop_frame (fuel n : nat) (feeds : nat -> nat -> list string) (k : nat)
    (s : state) :
  same_but_discovery s (main.refill_loop fuel n feeds k s).1.1.
Proof.
  revert k s. induction fuel as [|fuel IH]; intros k s; simpl.
  - by destruct (length (VIDEO_QUEUE s) <? n)%nat.
  - destruct (length (VIDEO_QUEUE s) <? n)%nat; [|done].
    destruct (get_fresh_video_link_globals (feeds k) s) as (pre & seen & c & E).
    destruct (scraper.get_fresh_video_link (feeds k) s) as [s1 [href|]];
      simpl in E; subst s1; [|done].
    match goal with |- same_but_discovery _ (main.refill_loop _ _ _ _ ?x).1.1 =>
      specialize (IH (S k) x) end.
    destruct IH as (H1 & H2 & H3 & H4 & H5). unfold same_but_discovery in *.
    simpl in *. by split_and!.
Qed.

(** A download leaves the history and the cursor as they are. *)
Lemma history_is_download_video (cfg : config) (meta : option downloader.extracted)
    (run : downloader.yt_dlp_result) (url folder : string) (h : list string) (c : Z)
    (s : state) :
  history_is h c s ->
  history_is h c (downloader.download_video cfg meta run url folder s).1.
Proof.
  intros Hs. unfold downloader.download_video.
  assert (H1 : history_is h c (downloader.cache_churn (downloader.ensure_folder cfg folder s))).
  { destruct (ensure_folder_files cfg folder s) as [b ->].
    unfold downloader.cache_churn. simpl.
    destruct (length (VIDEO_CACHE s) =? VIDEO_CACHE_maxlen)%nat; [|done].
    destruct (VIDEO_CACHE s); [done|]. simpl.
    by destruct (os_remove _ _). }
  destruct (downloader.out_of_bounds meta); [done|].
  destruct run as [size mtime|]; [|done]. simpl.
  match goal with |- history_is _ _ (enforce_disk_budget ?cf ?st) =>
    destruct (enforce_disk_budget_cursor cf st) as [E1 E2] end.
  unfold history_is. rewrite E1, E2, cleanup_files_fs. apply H1.
Qed.

(** X15.  Start-up never sends the first clip.  [main()] binds
    [CURRENT_INDEX] by [from utills import CURRENT_INDEX] before anything is
    played, so the test that guards the welcome video reads -1 whatever the
    downloads did: no [send_video] task is created, and whenever the polling
    loop is reached the log carries "No first video to send at startup"
    although the history then holds exactly the first clip with the cursor
    on it. *)
Theorem main_never_sends_first_video (cfg : config) (feeds : nat -> nat -> list string)
    (meta1 : option downloader.extracted) (run1 : downloader.yt_dlp_result)
    (meta2 : option downloader.extracted) (run2 : downloader.yt_dlp_result) (d : disk) :
  let r := main.main cfg feeds meta1 run1 meta2 run2 (initial d) in
  main.st_send r = None
  /\ (main.st_end r = main.start_polling ->
      main.ev_log "[ERROR] No first video to send at startup" ∈ main.st_log r
      /\ exists first_path,
           PLAYED_VIDEOS (main.st_state r) = [first_path]
           /\ CURRENT_INDEX (main.st_state r) = 0
           /\ current_path (main.st_state r) = Some first_path).
Proof.
  intros r. subst r. unfold main.main. cbv zeta.
  pose proof (refill_loop_frame PRELOAD_TARGET PRELOAD_TARGET feeds 0 (initial d)) as Hf.
  destruct (main.refill_loop PRELOAD_TARGET PRELOAD_TARGET feeds 0 (initial d))
    as [[s1 k] e]. simpl in Hf.
  destruct e; [|done|done].
  destruct (VIDEO_QUEUE s1) as [|first_url queue] eqn:Eq; [done|].
  assert (H1 : history_is [] (-1) (set_VIDEO_QUEUE queue s1)).
  { destruct Hf as (_ & H1 & H2 & _). by split. }
  pose proof (history_is_download_video cfg meta1 run1 first_url (OUTPUT_PATH cfg) _ _ _
                H1) as H2.
  destruct (downloader.download_video cfg meta1 run1 first_url (OUTPUT_PATH cfg) _)
    as [s2 [[first_path m1]|]]; [|done].
  simpl in H2. destruct H2 as [H2 H2'].
  assert (H3 : history_is [first_path] 0 (push_played_video cfg first_path true s2)).
  { split.
    - rewrite push_played_video_history, H2. done.
    - rewrite push_played_video_cursor, push_played_video_history, H2. done. }
  set (s3 := push_played_video cfg first_path true s2) in *.
  assert (H4 : forall s4 log1,
    (match VIDEO_QUEUE s3 with
     | [] => (s3, [main.ev_log "[WARNING] Not enough preloaded URLs to download second startup video"])
     | second_url :: queue' =>
         match downloader.download_video cfg meta2 run2 second_url (OUTPUT_PATH cfg)
                 (set_VIDEO_QUEUE queue' s3) with
         | (s', Some _) =>
             (s', [main.ev_log "Second video downloaded and kept ready for immediate 'Next'"])
         | (s', None) =>
             (s', [main.ev_log "[WARNING] Failed to download second startup video"])
         end
     end) = (s4, log1) -> history_is [first_path] 0 s4).
  { intros s4 log1. destruct (VIDEO_QUEUE s3) as [|second_url queue']; [by intros [= <- _]|].
    assert (H3' : history_is [first_path] 0 (set_VIDEO_QUEUE queue' s3)) by done.
    pose proof (history_is_download_video cfg meta2 run2 second_url (OUTPUT_PATH cfg) _ _ _
                  H3') as H5.
    destruct (downloader.download_video cfg meta2 run2 second_url (OUTPUT_PATH cfg) _)
      as [s' [?|]]; by intros [= <- _]. }
  match goal with
  | |- context [let '(_, _) := ?x in _] => destruct x as [s4 log1] eqn:E4
  end.
  specialize (H4 s4 log1 eq_refl).
  pose proof (refill_loop_frame 1 1 feeds k s4) as Hf5.
  set (s5 := (main.refill_loop 1 1 feeds k s4).1.1) in *.
  simpl. split; [done|]. intros _. split.
  - apply elem_of_cons. right. apply elem_of_app. right.
    by apply list_elem_of_singleton.
  - exists first_path.
    assert (H6 : history_is [first_path] 0 (enforce_disk_budget cfg (cleanup_files cfg s5))).
    { destruct (enforce_disk_budget_cursor cfg (cleanup_files cfg s5)) as [G1 G2].
      unfold history_is. rewrite G1, G2, cleanup_files_fs. destruct H4 as [E1 E2].
      destruct Hf5 as (_ & F1 & F2 & _). split; simpl; congruence. }
    destruct H6 as [E1 E2]. split_and!; [done|done|].
    unfold current_path. by rewrite E1, E2.
Qed.

(** ** Previous *)

(** X16.  Previous presents the artifact under the new cursor.  With the
    cursor on a later entry of the history, [prev_video] moves the cursor one
    back and, when the file of the entry now under the cursor exists, hands
    exactly that entry with its index to [send_video], the only thing that
    reaches the requester; the entry has metadata afterwards.  The queue, the
    ready cache, the history and the disk are as before. *)
Theorem prev_video_presents_previous (lazy_meta : option downloader.extracted)
    (s : state) (p : string) :
  0 < CURRENT_INDEX s ->
  PLAYED_VIDEOS s !! Z.to_nat (CURRENT_INDEX s - 1) = Some p ->
  os_path_exists p (fs s) = true ->
  let r := main.prev_video lazy_meta s in
  CURRENT_INDEX r.1 = CURRENT_INDEX s - 1
  /\ current_path r.1 = Some p
  /\ List.filter to_requester r.2 = [main.ev_send_video p (CURRENT_INDEX s - 1)]
  /\ is_Some (METADATA_BY_PATH r.1 !! p)
  /\ VIDEO_QUEUE r.1 = VIDEO_QUEUE s
  /\ VIDEO_CACHE r.1 = VIDEO_CACHE s
  /\ PLAYED_VIDEOS r.1 = PLAYED_VIDEOS s
  /\ fs r.1 = fs s.
Proof.
  intros Hpos Hp Hex r. subst r. unfold main.prev_video.
  destruct (Z.ltb_spec 0 (CURRENT_INDEX s)); [|lia].
  assert (Hlen : CURRENT_INDEX s - 1 < Z.of_nat (length (PLAYED_VIDEOS s))).
  { apply lookup_lt_Some in Hp. lia. }
  unfold main.present. cbn [CURRENT_INDEX PLAYED_VIDEOS set_CURRENT_INDEX].
  destruct (Z.leb_spec 0 (CURRENT_INDEX s - 1)); [|lia].
  destruct (Z.ltb_spec (CURRENT_INDEX s - 1) (Z.of_nat (length (PLAYED_VIDEOS s)))); [|lia].
  cbn [andb]. rewrite Hp. unfold main.send_video.
  cbn [fs set_CURRENT_INDEX METADATA_BY_PATH]. rewrite Hex. cbn [negb].
  assert (Hcur : forall m d, current_path
            (State (VIDEO_QUEUE s) (VIDEO_CACHE s) (PRELOADED_VIDEOS s) (SEEN_URLS s)
               (PLAYED_VIDEOS s) (CURRENT_INDEX s - 1) (PRELOAD_COUNTER s) m d) = Some p).
  { intros m d. unfold current_path. cbn [CURRENT_INDEX PLAYED_VIDEOS].
    destruct (Z.leb_spec 0 (CURRENT_INDEX s - 1)); [|lia].
    by destruct (Z.ltb_spec (CURRENT_INDEX s - 1) (Z.of_nat (length (PLAYED_VIDEOS s))));
      [|lia]. }
  destruct (METADATA_BY_PATH s !! p) as [m|] eqn:Em.
  - unfold set_CURRENT_INDEX. cbn. rewrite Em. split_and!; first [done|apply Hcur].
  - unfold set_CURRENT_INDEX, set_METADATA_BY_PATH. cbn.
    rewrite lookup_insert_eq. split_and!; first [done|apply Hcur].
Qed.

Lemma prev_video_presents_previous_witness :
  let r := main.prev_video None full_history_state in
  current_path r.1 = Some (clip "2")
  /\ List.filter to_requester r.2 = [main.ev_send_video (clip "2") 1].
Proof.
  intros r.
  destruct (prev_video_presents_previous None full_history_state (clip "2"))
    as (_ & H2 & H3 & _).
  - simpl. lia.
  - reflexivity.
  - reflexivity.
  - split; [exact H2|exact H3].
Defined.

(** ** The posting flow *)

Lemma handle_other (tg c : Z) (u : update) (pending : gmap Z main.flow) :
  chat_of tg u <> Some c ->
  (handle tg u pending).1.1 !! c = pending !! c.
Proof.
  intros Hne. destruct u as [chat sent s|chat text sent]; simpl in *.
  - unfold main.post_video.
    destruct (_ && _)%bool; [|done].
    destruct (PLAYED_VIDEOS s !! _); [|done].
    assert (Hc : match chat with Some c0 => c0 | None => tg end <> c).
    { intros E. apply Hne. by destruct chat; simpl; rewrite E. }
    destruct sent; simpl; by rewrite lookup_insert_ne.
  - unfold main.text_message_handler. destruct chat as [chat_id|]; [|done].
    assert (Hc : chat_id <> c) by congruence.
    destruct (pending !! chat_id) as [flow|]; [|done].
    destruct (main.stage flow =? 1); [destruct sent; simpl; by rewrite lookup_insert_ne|].
    destruct (main.stage flow =? 2); [destruct sent; simpl; by rewrite lookup_insert_ne|].
    done.
Qed.

Lemma handle_all_other (tg c : Z) (us : list update) (pending : gmap Z main.flow) :
  Forall (fun u => chat_of tg u <> Some c) us ->
  handle_all tg us pending !! c = pending !! c.
Proof.
  revert pending. induction us as [|u us IH]; intros pending Hus; [done|].
  apply Forall_cons in Hus as [Hu Hus]. unfold handle_all in *. simpl.
  rewrite IH by done. by apply handle_other.
Qed.

Lemma no_call_among_deletes (f : main.bot_call -> bool) (c : Z) (ids : list Z)
    (calls : list main.bot_call) :
  (forall i, f (main.delete_message c i) = false) ->
  List.filter f (map (main.delete_message c) ids ++ calls) = List.filter f calls.
Proof. intros Hf. induction ids as [|i ids IH]; [done|]. simpl. by rewrite Hf. Qed.

(** One update of chat [c]: no posting task, and a notice only in answer to
    a flow that was waiting. *)
Lemma handle_pays (tg c : Z) (u : update) (pending : gmap Z main.flow) :
  chat_of tg u = Some c ->
  let r := handle tg u pending in
  List.filter is_post r.1.2 = []
  /\ (length (List.filter is_notice r.1.2) + awaiting c r.1.1
      <= awaiting c pending + (if is_press_for tg c u then 1 else 0))%nat.
Proof.
  intros Hc r. subst r. destruct u as [chat sent s|chat text sent]; simpl in *.
  - rewrite bool_decide_eq_true_2 by done. unfold main.post_video.
    assert (E : match chat with Some c0 => c0 | None => tg end = c)
      by (destruct chat; simpl in Hc; congruence).
    rewrite E.
    destruct (_ && _)%bool; [|simpl; split; [done|lia]].
    destruct (PLAYED_VIDEOS s !! _); [|simpl; split; [done|lia]].
    destruct sent; simpl; unfold awaiting; rewrite lookup_insert_eq; simpl;
      (split; [done|lia]).
  - subst chat. unfold main.text_message_handler.
    destruct (pending !! c) as [flow|] eqn:Ef; [|simpl; split; [done|lia]].
    assert (Ha : awaiting c pending
                 = if ((main.stage flow =? 1) || (main.stage flow =? 2))%bool
                   then 1%nat else 0%nat) by (unfold awaiting; by rewrite Ef).
    rewrite Ha.
    destruct (main.stage flow =? 1) eqn:E1.
    { destruct sent; cbn [fst snd]; rewrite !no_call_among_deletes by done;
        unfold awaiting; rewrite lookup_insert_eq; simpl; (split; [done|lia]). }
    destruct (main.stage flow =? 2) eqn:E2.
    { destruct sent; cbn [fst snd main.re]; rewrite !no_call_among_deletes by done;
        unfold awaiting; rewrite lookup_insert_eq; simpl; (split; [done|lia]). }
    cbn [fst snd]. rewrite Ha. simpl. split; [done|lia].
Qed.

Lemma calls_for_paid (tg c : Z) (us : list update) (pending : gmap Z main.flow) :
  List.filter is_post (calls_for tg c us pending) = []
  /\ (length (List.filter is_notice (calls_for tg c us pending))
      <= awaiting c pending + presses_for tg c us)%nat.
Proof.
  revert pending. induction us as [|u us IH]; intros pending; simpl; [split; [done|lia]|].
  destruct (IH (handle tg u pending).1.1) as [IH1 IH2].
  unfold presses_for in *. simpl. rewrite !List.filter_app, length_app, IH1.
  case_bool_decide as Hc.
  - destruct (handle_pays tg c u pending Hc) as [Hp1 Hp2].
    rewrite Hp1. split; [done|].
    destruct (is_press_for tg c u); simpl; simpl in Hp2; lia.
  - assert (Ha : awaiting c (handle tg u pending).1.1 = awaiting c pending).
    { unfold awaiting. by rewrite handle_other. }
    assert (Hn : is_press_for tg c u = false).
    { destruct u; [|done]. simpl in *. by apply bool_decide_eq_false_2. }
    rewrite Hn. simpl. split; [done|lia].
Qed.

(** X17.  The posting flow never posts.  Whatever buttons are pressed and
    whatever texts arrive, in whatever chats and with whatever failures of
    the bot, starting from no pending flow, no posting task is ever created
    in answer to the updates of a chat, while the notice that the post is
    being processed is sent at most once for each press of Post in that
    chat. *)
Theorem post_flow_never_posts (TELEGRAM_CHAT_ID : Z) (c : Z) (us : list update) :
  let calls := calls_for TELEGRAM_CHAT_ID c us ∅ in
  List.filter is_post calls = []
  /\ (length (List.filter is_notice calls) <= presses_for TELEGRAM_CHAT_ID c us)%nat.
Proof.
  intros calls. subst calls.
  destruct (calls_for_paid TELEGRAM_CHAT_ID c us ∅) as [H1 H2].
  unfold awaiting in H2. rewrite lookup_empty in H2. by split.
Qed.

(** X18.  A press of Post followed by two replies, whatever happens in other
    chats in between: each reply deletes the prompt before it, the second
    reply is answered with the notice that the post is being processed, and
    then the handler raises ([re] is unbound at line 374) before it creates
    the posting task.  The flow stays at stage 3 with the clip, the comment
    and the hashtags it collected, and further text from the chat is
    ignored. *)
Theorem post_flow_stops_before_posting (TELEGRAM_CHAT_ID c m1 m2 m3 : Z)
    (t1 t2 t3 : option string) (sent : option Z) (s : state) (p : string)
    (pending : gmap Z main.flow) (others1 others2 : list update) :
  current_path s = Some p ->
  Forall (fun u => chat_of TELEGRAM_CHAT_ID u <> Some c) others1 ->
  Forall (fun u => chat_of TELEGRAM_CHAT_ID u <> Some c) others2 ->
  let r1 := main.post_video TELEGRAM_CHAT_ID (Some c) (Some m1) pending s in
  let r2 := main.text_message_handler (Some c) t1 (Some m2)
              (handle_all TELEGRAM_CHAT_ID others1 r1.1.1) in
  let r3 := main.text_message_handler (Some c) t2 (Some m3)
              (handle_all TELEGRAM_CHAT_ID others2 r2.1.1) in
  let r4 := main.text_message_handler (Some c) t3 sent r3.1.1 in
  (r1.1.2 = [main.send_message c "What would you like to comment?" false]
   /\ r1.2 = main.returned)
  /\ (r2.1.2 = [main.delete_message c m1;
                main.send_message c "What would you like as your #?" false]
      /\ r2.2 = main.returned)
  /\ (r3.1.2 = [main.delete_message c m2;
                main.send_message c
                  "Your post is now processing. Please check your TikTok shortly to confirm."
                  true]
      /\ r3.2 = main.handler_raised)
  /\ r3.1.1 !! c = Some (main.Flow 3 p (Some (default "" t1)) (Some (default "" t2)) []
                           (Some m3))
  /\ r4 = (r3.1.1, [], main.returned).
Proof.
  intros Hcur Ho1 Ho2 r1 r2 r3 r4.
  assert (E1 : r1 = (<[c := main.Flow 1 p None None [m1] None]> pending,
                     [main.send_message c "What would you like to comment?" false],
                     main.returned)).
  { subst r1. unfold main.post_video. unfold current_path in Hcur.
    destruct (_ && _)%bool; [|done]. by rewrite Hcur. }
  assert (L1 : handle_all TELEGRAM_CHAT_ID others1 r1.1.1 !! c
               = Some (main.Flow 1 p None None [m1] None)).
  { rewrite handle_all_other by done. rewrite E1. simpl. apply lookup_insert_eq. }
  assert (E2 : r2 = (<[c := main.Flow 2 p (Some (default "" t1)) None [m2] None]>
                       (handle_all TELEGRAM_CHAT_ID others1 r1.1.1),
                     [main.delete_message c m1;
                      main.send_message c "What would you like as your #?" false],
                     main.returned)).
  { subst r2. unfold main.text_message_handler. rewrite L1. simpl.
    by destruct t1. }
  assert (L2 : handle_all TELEGRAM_CHAT_ID others2 r2.1.1 !! c
               = Some (main.Flow 2 p (Some (default "" t1)) None [m2] None)).
  { rewrite handle_all_other by done. rewrite E2. simpl. apply lookup_insert_eq. }
  assert (E3 : r3 = (<[c := main.Flow 3 p (Some (default "" t1)) (Some (default "" t2)) []
                             (Some m3)]>
                       (handle_all TELEGRAM_CHAT_ID others2 r2.1.1),
                     [main.delete_message c m2;
                      main.send_message c
                        "Your post is now processing. Please check your TikTok shortly to confirm."
                        true],
                     main.handler_raised)).
  { subst r3. unfold main.text_message_handler. rewrite L2. simpl.
    by destruct t2. }
  split; [by rewrite E1|]. split; [by rewrite E2|]. split; [by rewrite E3|].
  split.
  - rewrite E3. simpl. by rewrite lookup_insert_eq.
  - subst r4. unfold main.text_message_handler. rewrite E3. simpl.
    by rewrite lookup_insert_eq.
Qed.

Lemma post_flow_stops_before_posting_witness :
  let r1 := main.post_video 7 (Some 42) (Some 100) ∅ full_history_state in
  let r2 := main.text_message_handler (Some 42) (Some "so cute") (Some 101) r1.1.1 in
  let r3 := main.text_message_handler (Some 42) (Some "#cats  #fun") (Some 102) r2.1.1 in
  r3.1.2 = [main.delete_message 42 101;
            main.send_message 42
              "Your post is now processing. Please check your TikTok shortly to confirm."
              true]
  /\ r3.2 = main.handler_raised
  /\ r3.1.1 !! 42 = Some (main.Flow 3 (clip "3") (Some "so cute") (Some "#cats  #fun") []
                             (Some 102)).
Proof.
  intros r1 r2 r3.
  destruct (post_flow_stops_before_posting 7 42 100 101 102 (Some "so cute")
              (Some "#cats  #fun") None None full_history_state (clip "3") ∅ [] [])
    as (_ & _ & H3 & H4 & _).
  - reflexivity.
  - apply Forall_nil_2.
  - apply Forall_nil_2.
  - destruct H3 as [H3 H3']. split; [exact H3|]. split; [exact H3'|exact H4].
Defined.
